(** * toggl-tracker: a shallow embedding of [src/toggl/main.py]

    The script is a sequence of HTTP calls, JSON file accesses and a terminal
    menu around a handful of pure computations.  The embedding keeps the pure
    computations as functions, threads the mutable menu state explicitly and
    returns Python exceptions through a [result] type. *)

From Stdlib Require Import ZArith Lia String Ascii Bool DecimalString.
From stdpp Require Import base tactics decidable option list numbers.
Local Open Scope Z_scope.

(** ** Python values *)

(** Exceptions the modelled code can raise.  [SystemExit] is [sys.exit(code)]. *)
Inductive exn : Type :=
| ValueError
| OverflowError
| TypeError
| IndexError
| SystemExit (code : Z).

Inductive result (A : Type) : Type :=
| Ok (a : A)
| Raise (e : exn).
Arguments Ok {A} a.
Arguments Raise {A} e.

Definition bind {A B : Type} (r : result A) (k : A -> result B) : result B :=
  match r with
  | Ok a => k a
  | Raise e => Raise e
  end.

Notation "'let*' x ':=' c 'in' k" := (bind c (fun x => k))
  (at level 10, x name, c at level 100, k at level 200).
Notation "'let*' ' p ':=' c 'in' k" := (bind c (fun p => k))
  (at level 10, p pattern, c at level 100, k at level 200).

(** [try: ... except Exception: sys.exit(1)].  [SystemExit] derives from
    [BaseException] and passes through unchanged. *)
Definition except_Exception_exit {A : Type} (r : result A) : result A :=
  match r with
  | Ok a => Ok a
  | Raise (SystemExit c) => Raise (SystemExit c)
  | Raise _ => Raise (SystemExit 1)
  end.

(** A Python [str] is a sequence of Unicode code points. *)
Abbreviation str := (list N).

Fixpoint str_of_string (s : string) : str :=
  match s with
  | EmptyString => []
  | String c s' => N_of_ascii c :: str_of_string s'
  end.

(** [a < b] on [str]: lexicographic by code point, a proper prefix is smaller. *)
Fixpoint str_ltb (a b : str) : bool :=
  match a, b with
  | _, [] => false
  | [], _ :: _ => true
  | x :: a', y :: b' =>
      if (x <? y)%N then true
      else if (x =? y)%N then str_ltb a' b'
      else false
  end.

Definition str_eqb (a b : str) : bool := bool_decide (a = b).

(** Truthiness of the values the script tests with [if x] / [x and y]. *)
Definition truthy_str (s : str) : bool :=
  match s with
  | [] => false
  | _ :: _ => true
  end.

Definition truthy_int (z : Z) : bool := negb (z =? 0).

Definition truthy_opt {A : Type} (truthy : A -> bool) (o : option A) : bool :=
  match o with
  | None => false
  | Some a => truthy a
  end.

(** The elements of the sort-key tuple. *)
Inductive value : Type :=
| VInt (z : Z)
| VStr (s : str)
| VNone.

Definition value_eqb (a b : value) : bool :=
  match a, b with
  | VInt x, VInt y => x =? y
  | VStr x, VStr y => str_eqb x y
  | VNone, VNone => true
  | _, _ => false
  end.

(** [a < b]: defined within [int] and within [str]; [None] is unorderable. *)
Definition value_lt (a b : value) : result bool :=
  match a, b with
  | VInt x, VInt y => Ok (x <? y)
  | VStr x, VStr y => Ok (str_ltb x y)
  | _, _ => Raise TypeError
  end.

(** Tuple comparison: skip the common prefix of equal elements, then compare
    the first pair that differs; if there is none, the shorter tuple is
    smaller. *)
Fixpoint tuple_lt (a b : list value) : result bool :=
  match a, b with
  | _, [] => Ok false
  | [], _ :: _ => Ok true
  | x :: a', y :: b' => if value_eqb x y then tuple_lt a' b' else value_lt x y
  end.

(** A [dict] with [int] keys: insertion ordered, a key occurs once, assigning
    to an existing key keeps its position. *)
Abbreviation dict V := (list (Z * V)).

Fixpoint dict_get {V : Type} (k : Z) (d : dict V) : option V :=
  match d with
  | [] => None
  | (k', v) :: d' => if k =? k' then Some v else dict_get k d'
  end.

Fixpoint dict_set {V : Type} (k : Z) (v : V) (d : dict V) : dict V :=
  match d with
  | [] => [(k, v)]
  | (k', v') :: d' => if k =? k' then (k, v) :: d' else (k', v') :: dict_set k v d'
  end.

Definition dict_keys {V : Type} (d : dict V) : list Z := map fst d.
Definition dict_values {V : Type} (d : dict V) : list V := map snd d.

(** [list.sort()]: a stable sort that calls only the elements' [__lt__]
    ([lt] below), here by insertion from the right; an exception raised by a
    comparison propagates. *)
Section Sort.
Context {A : Type} (lt : A -> A -> result bool).

Fixpoint sort_insert (x : A) (l : list A) : result (list A) :=
  match l with
  | [] => Ok [x]
  | y :: l' =>
      let* b := lt y x in
      if b then
        let* r := sort_insert x l' in
        Ok (y :: r)
      else Ok (x :: y :: l')
  end.

Fixpoint list_sort (l : list A) : result (list A) :=
  match l with
  | [] => Ok []
  | x :: l' =>
      let* r := list_sort l' in
      sort_insert x r
  end.

End Sort.

(** ** [datetime.datetime], [datetime.timedelta]

    A [datetime] carries its date as the proleptic Gregorian ordinal
    ([date.toordinal()], day 1 is 0001-01-01; ordinals and (year, month, day)
    triples are in bijection), the four time-of-day fields, and the UTC offset
    of its fixed-offset [tzinfo] in microseconds ([None] for a naive value).
    A [timedelta] is its total number of microseconds. *)

Definition MAXORDINAL : Z := 3652059.  (* date(9999, 12, 31).toordinal() *)
Definition US_PER_SECOND : Z := 1000000.
Definition US_PER_DAY : Z := 86400 * US_PER_SECOND.

Record datetime : Type := mk_datetime {
  ordinal : Z;
  hour : Z;
  minute : Z;
  second : Z;
  microsecond : Z;
  utcoffset : option Z
}.

(** The class invariant: what the constructor accepts. *)
Definition valid_datetime (dt : datetime) : Prop :=
  1 <= ordinal dt <= MAXORDINAL /\
  0 <= hour dt < 24 /\
  0 <= minute dt < 60 /\
  0 <= second dt < 60 /\
  0 <= microsecond dt < US_PER_SECOND /\
  match utcoffset dt with
  | None => True
  | Some off => - US_PER_DAY < off < US_PER_DAY
  end.

(** [timedelta(minutes=m)] *)
Definition timedelta_minutes (m : Z) : Z := m * 60 * US_PER_SECOND.

(** Microseconds from the start of day 0 to the wall-clock reading of [dt]. *)
Definition naive_micros (dt : datetime) : Z :=
  (ordinal dt * 86400 + hour dt * 3600 + minute dt * 60 + second dt) * US_PER_SECOND
  + microsecond dt.

(** The instant an aware [dt] denotes, on the UTC time line. *)
Definition utc_micros (dt : datetime) (off : Z) : Z := naive_micros dt - off.

(** [dt.replace(minute=m, second=s, microsecond=us)]: the constructor checks
    the new fields. *)
Definition dt_replace (dt : datetime) (m s us : Z) : result datetime :=
  if (0 <=? m) && (m <? 60) && (0 <=? s) && (s <? 60)
     && (0 <=? us) && (us <? US_PER_SECOND)
  then Ok {| ordinal := ordinal dt; hour := hour dt; minute := m; second := s;
             microsecond := us; utcoffset := utcoffset dt |}
  else Raise ValueError.

(** [dt + delta]: wall-clock arithmetic, the [tzinfo] is kept; the result must
    lie within [datetime.min .. datetime.max]. *)
Definition dt_add (dt : datetime) (delta : Z) : result datetime :=
  let total := naive_micros dt + delta in
  let days := total / US_PER_DAY in
  let rest := total mod US_PER_DAY in
  let secs := rest / US_PER_SECOND in
  if (0 <? days) && (days <=? MAXORDINAL)
  then Ok {| ordinal := days; hour := secs / 3600; minute := secs mod 3600 / 60;
             second := secs mod 60; microsecond := rest mod US_PER_SECOND;
             utcoffset := utcoffset dt |}
  else Raise OverflowError.

(** Comparison of the field tuples (year, month, day) ~ ordinal, hour, ... *)
Definition fields_compare (a b : datetime) : comparison :=
  match ordinal a ?= ordinal b with
  | Eq => match hour a ?= hour b with
          | Eq => match minute a ?= minute b with
                  | Eq => match second a ?= second b with
                          | Eq => microsecond a ?= microsecond b
                          | c => c
                          end
                  | c => c
                  end
          | c => c
          end
  | c => c
  end.

(** [datetime._cmp]: equal offsets compare fields, different offsets compare
    instants, naive against aware is a [TypeError]. *)
Definition dt_compare (a b : datetime) : result comparison :=
  match utcoffset a, utcoffset b with
  | None, None => Ok (fields_compare a b)
  | Some oa, Some ob =>
      if oa =? ob then Ok (fields_compare a b)
      else Ok (utc_micros a oa ?= utc_micros b ob)
  | _, _ => Raise TypeError
  end.

(** [a == b] never raises: naive and aware values are simply unequal. *)
Definition dt_eqb (a b : datetime) : bool :=
  match dt_compare a b with
  | Ok Eq => true
  | _ => false
  end.

Definition dt_lt (a b : datetime) : result bool :=
  let* c := dt_compare a b in
  Ok (match c with Lt => true | _ => false end).

Definition dt_le (a b : datetime) : result bool :=
  let* c := dt_compare a b in
  Ok (match c with Gt => false | _ => true end).

(** [a - b] as a [timedelta]. *)
Definition dt_sub (a b : datetime) : result Z :=
  let base := naive_micros a - naive_micros b in
  match utcoffset a, utcoffset b with
  | None, None => Ok base
  | Some oa, Some ob => Ok (base + ob - oa)
  | _, _ => Raise TypeError
  end.

(** *** [isoformat]

    [_ord2ymd] of the standard library, for the date part of the text. *)

Definition _DAYS_IN_MONTH (month : Z) : Z :=
  nth (Z.to_nat month) [-1; 31; 28; 31; 30; 31; 30; 31; 31; 30; 31; 30; 31] 0.

Definition _DAYS_BEFORE_MONTH (month : Z) : Z :=
  nth (Z.to_nat month) [-1; 0; 31; 59; 90; 120; 151; 181; 212; 243; 273; 304; 334] 0.

Definition _ord2ymd (n : Z) : Z * Z * Z :=
  let n := n - 1 in
  let n400 := n / 146097 in
  let n := n mod 146097 in
  let n100 := n / 36524 in
  let n := n mod 36524 in
  let n4 := n / 1461 in
  let n := n mod 1461 in
  let n1 := n / 365 in
  let n := n mod 365 in
  let year := n400 * 400 + 1 + n100 * 100 + n4 * 4 + n1 in
  if (n1 =? 4) || (n100 =? 4) then (year - 1, 12, 31)
  else
    let leapyear := (n1 =? 3) && (negb (n4 =? 24) || (n100 =? 3)) in
    let month := Z.shiftr (n + 50) 5 in
    let preceding := _DAYS_BEFORE_MONTH month + Z.b2z ((2 <? month) && leapyear) in
    if n <? preceding then
      let month := month - 1 in
      let preceding :=
        preceding - (_DAYS_IN_MONTH month + Z.b2z ((month =? 2) && leapyear)) in
      (year, month, n - preceding + 1)
    else (year, month, n - preceding + 1).

(** ["%02d" % n] and friends, for the field ranges of a valid [datetime]
    (wider numbers would print more digits). *)
Definition digit (n : Z) : N := Z.to_N (48 + n mod 10).
Definition pad2 (n : Z) : str := [digit (n / 10); digit n].
Definition pad4 (n : Z) : str := [digit (n / 1000); digit (n / 100); digit (n / 10); digit n].
Definition pad6 (n : Z) : str := pad2 (n / 10000) ++ pad2 (n / 100) ++ pad2 n.

Definition chr_colon : N := 58.
Definition chr_dot : N := 46.
Definition chr_minus : N := 45.
Definition chr_plus : N := 43.
Definition chr_T : N := 84.

(** [_format_offset]: [+HH:MM], then [:SS] and [.ffffff] only when non-zero. *)
Definition format_offset (off : option Z) : str :=
  match off with
  | None => []
  | Some off =>
      let sign := if off <? 0 then chr_minus else chr_plus in
      let off := Z.abs off in
      let hh := off / (3600 * US_PER_SECOND) in
      let mm := off mod (3600 * US_PER_SECOND) / (60 * US_PER_SECOND) in
      let ss := off mod (60 * US_PER_SECOND) in
      [sign] ++ pad2 hh ++ [chr_colon] ++ pad2 mm
      ++ (if ss =? 0 then []
          else [chr_colon] ++ pad2 (ss / US_PER_SECOND)
               ++ (if ss mod US_PER_SECOND =? 0 then []
                   else [chr_dot] ++ pad6 (ss mod US_PER_SECOND)))
  end.

Definition isoformat_date (dt : datetime) : str :=
  let '(y, m, d) := _ord2ymd (ordinal dt) in
  pad4 y ++ [chr_minus] ++ pad2 m ++ [chr_minus] ++ pad2 d.

(** [dt.isoformat(timespec="seconds")] *)
Definition isoformat_seconds (dt : datetime) : str :=
  isoformat_date dt ++ [chr_T]
  ++ pad2 (hour dt) ++ [chr_colon] ++ pad2 (minute dt) ++ [chr_colon] ++ pad2 (second dt)
  ++ format_offset (utcoffset dt).

(** ** Helper functions of the script *)

Definition _round_time_down (dt : datetime) : result datetime :=
  dt_replace dt (minute dt / 15 * 15) 0 0.

Definition on_boundary (dt : datetime) : bool :=
  (minute dt mod 15 =? 0) && (second dt =? 0) && (microsecond dt =? 0).

Definition _round_time_up (dt : datetime) : result datetime :=
  if on_boundary dt then Ok dt
  else
    let* down := _round_time_down dt in
    dt_add down (timedelta_minutes 15).

Definition _format_iso (dt : datetime) : str := isoformat_seconds dt.

(** ** Builtins with Unicode tables

    [str.lower] and [str.strip] depend on the interpreter's Unicode database;
    the script is modelled over any implementation of the two. *)
Class UnicodeDB : Type := {
  str_lower : str -> str;
  str_strip : str -> str
}.

(** The ASCII restriction of the two builtins, for evaluating examples. *)
Definition ascii_lower_char (c : N) : N :=
  if ((65 <=? c) && (c <=? 90))%N then (c + 32)%N else c.

Definition ascii_isspace (c : N) : bool :=
  (((9 <=? c) && (c <=? 13)) || ((28 <=? c) && (c <=? 32)))%N.

Fixpoint lstrip (s : str) : str :=
  match s with
  | [] => []
  | c :: s' => if ascii_isspace c then lstrip s' else s
  end.

Definition ascii_db : UnicodeDB :=
  {| str_lower := map ascii_lower_char;
     str_strip := fun s => rev (lstrip (rev (lstrip s))) |}.

(** ** Data classes *)

Definition DEFAULT_CLIENT : str := Eval cbv in str_of_string "Lunatech".

Module Project.

Record t : Type := mk {
  id : Z;
  name : str;
  workspace_id : Z;
  client : option str;
  alias : option str;
  billable : bool
}.

(** [project.alias = a] on the object: every other field is kept. *)
Definition set_alias (self : t) (a : option str) : t :=
  {| id := id self; name := name self; workspace_id := workspace_id self;
     client := client self; alias := a; billable := billable self |}.

Definition _get_sort_key (self : t) : list value :=
  let client_rank :=
    match client self with
    | None => 2
    | Some c => if str_eqb c DEFAULT_CLIENT then 1 else 0
    end in
  [VInt client_rank;
   match client self with None => VNone | Some c => VStr c end;
   VStr (name self)].

Definition __lt__ (self other : t) : result bool :=
  tuple_lt (_get_sort_key self) (_get_sort_key other).

End Project.

Module Config.

Record t : Type := mk {
  projects : dict Project.t;
  default_project_id : option Z
}.

(** [self.projects.get(self.default_project_id) if self.default_project_id
    else None]: the condition is the truthiness of an [int | None]. *)
Definition _get_default_project (self : t) : option Project.t :=
  match default_project_id self with
  | Some i => if truthy_int i then dict_get i (projects self) else None
  | None => None
  end.

Definition alias_matches (project : Project.t) (selector : str) : bool :=
  truthy_opt truthy_str (Project.alias project)
  && bool_decide (Project.alias project = Some selector).

Definition name_matches `{UnicodeDB} (project : Project.t) (selector : str) : bool :=
  str_eqb (str_lower (Project.name project)) (str_lower selector).

(** [selector] is [None] when the command line has no [--project].  The two
    messages printed for an empty selector are not modelled. *)
Definition get_project `{UnicodeDB} (self : t) (selector : option str)
  : option Project.t :=
  if negb (truthy_opt truthy_str selector) then _get_default_project self
  else
    let selector := default [] selector in
    find (fun project => alias_matches project selector || name_matches project selector)
         (dict_values (projects self)).

End Config.

(** ** The [/me?with_related_data=true] response

    Fields the script indexes with [p["..."]] are present; [None] in a client
    record is an absent key, in [client_id] a JSON null.  [None] for the whole
    response stands for any falsy body. *)
Record raw_client : Type := mk_raw_client {
  rc_id : option Z;
  rc_name : option str
}.

Record raw_project : Type := mk_raw_project {
  rp_id : Z;
  rp_name : str;
  rp_workspace_id : Z;
  rp_client_id : option Z;
  rp_billable : bool;
  rp_active : bool;
  rp_is_private : bool
}.

Record me_data : Type := mk_me_data {
  md_clients : option (list raw_client);
  md_projects : option (list raw_project)
}.

(** [{c["id"]: c["name"] for c in clients_data if "id" in c and "name" in c}] *)
Definition clients_map_of (clients_data : list raw_client) : dict str :=
  fold_left
    (fun m c =>
       match rc_id c, rc_name c with
       | Some i, Some n => dict_set i n m
       | _, _ => m
       end)
    clients_data [].

Definition project_of_raw (clients_map : dict str) (p : raw_project) : Project.t :=
  {| Project.id := rp_id p;
     Project.name := rp_name p;
     Project.workspace_id := rp_workspace_id p;
     Project.client := c ← rp_client_id p; dict_get c clients_map;
     Project.alias := None;
     Project.billable := rp_billable p |}.

Definition _fetch_projects (response : option me_data) : result (list Project.t) :=
  match response with
  | None => Raise (SystemExit 1)
  | Some me =>
      let clients_map :=
        match md_clients me with
        | Some clients_data => clients_map_of clients_data
        | None => []
        end in
      match md_projects me with
      | Some projects_data =>
          list_sort Project.__lt__
            (map (project_of_raw clients_map)
                 (List.filter (fun p => rp_active p && negb (rp_is_private p)) projects_data))
      | None => Ok []
      end
  end.

Definition _projects_to_dict (projects : list Project.t) : dict Project.t :=
  fold_left (fun d project => dict_set (Project.id project) project d) projects [].

(** The value returned is the [Config] that [_save_config] writes to
    [toggl_config.json]. *)
Definition handle_init (response : option me_data) : result Config.t :=
  let* projects := _fetch_projects response in
  Ok {| Config.projects := _projects_to_dict projects;
        Config.default_project_id := None |}.

(** ** The interactive menu *)

(** [str(index)] *)
Definition str_of_int (z : Z) : str :=
  str_of_string (NilZero.string_of_int (Z.to_int z)).

Definition ord_a : Z := 97.
Definition ord_q : Z := 113.
Definition ord_z : Z := 122.

(** [chr(i)] for a code point [i] *)
Definition chr (i : Z) : str := [Z.to_N i].

(** What the script writes to the terminal, by kind. *)
Inductive message : Type :=
| Alias_not_changed
| Error_alias_in_use (alias : str)
| Alias_removed
| Now_default
| Configuration_saved
| Quit_without_saving.

(** The entries of the edit menu, named by their shortcut character. *)
Inductive action : Type := a_change_alias | r_remove_alias | d_set_default | b_back.

(** What the user does in one round of the selection loop: the entry picked
    in the project list ([None] is Esc), the entry picked in the edit menu,
    and the line typed at the alias prompt. *)
Record interaction : Type := mk_interaction {
  picked_project : option nat;
  picked_action : option nat;
  typed : str
}.

Module ProjectMenu.

Record t : Type := mk {
  projects : list Project.t;
  default_project_id : option Z
}.

Definition shortcut_from_char (char : str) : str :=
  if truthy_str char then [91%N] ++ char ++ [93%N; 32%N] else [].

Definition _shortcut_for_index (index : Z) : str :=
  if index <? 10 then shortcut_from_char (str_of_int index)
  else
    let index := index - 10 + ord_a in
    let index := if ord_q <=? index then index + 1 else index in
    if index <? ord_z then shortcut_from_char (chr index)
    else [].

Definition _make_config (self : t) : Config.t :=
  {| Config.projects := _projects_to_dict (projects self);
     Config.default_project_id := default_project_id self |}.

Definition _is_alias_used (self : t) (alias : str) : bool :=
  existsb (fun project => bool_decide (Project.alias project = Some alias))
          (projects self).

(** [selected_project] is the object at [self.projects[selected_idx]];
    assigning to its [alias] updates the list in place.  [line] is what
    [input()] returns. *)
Definition _show_change_alias_menu `{UnicodeDB}
    (self : t) (selected_idx : nat) (selected_project : Project.t) (line : str)
  : t * list message :=
  let new_alias_val := str_strip line in
  if negb (truthy_str new_alias_val)
     || bool_decide (Some new_alias_val = Project.alias selected_project)
  then (self, [Alias_not_changed])
  else if _is_alias_used self new_alias_val
  then (self, [Error_alias_in_use new_alias_val])
  else
    ({| projects :=
          <[selected_idx := Project.set_alias selected_project (Some new_alias_val)]>
            (projects self);
        default_project_id := default_project_id self |}, []).

Definition project_edit_items (self : t) (selected_project : Project.t) : list action :=
  [a_change_alias]
  ++ (if truthy_opt truthy_str (Project.alias selected_project)
      then [r_remove_alias] else [])
  ++ (if bool_decide (Some (Project.id selected_project) = default_project_id self)
      then [] else [d_set_default])
  ++ [b_back].

(** [selected_action_idx] is what [TerminalMenu.show()] returns. *)
Definition _show_edit_project_menu
    (self : t) (selected_project_idx : nat) (selected_action_idx : option nat)
  : result action :=
  match projects self !! selected_project_idx with
  | None => Raise IndexError
  | Some selected_project =>
      match selected_action_idx with
      | None => Ok b_back
      | Some k =>
          match project_edit_items self selected_project !! k with
          | Some act => Ok act
          | None => Raise IndexError
          end
      end
  end.

Definition _edit_project_menu_loop `{UnicodeDB}
    (self : t) (selected_project_idx : nat) (user : interaction)
  : result (t * list message) :=
  match projects self !! selected_project_idx with
  | None => Raise IndexError
  | Some selected_project =>
      let* choice :=
        _show_edit_project_menu self selected_project_idx (picked_action user) in
      match choice with
      | a_change_alias =>
          Ok (_show_change_alias_menu self selected_project_idx selected_project
                                      (typed user))
      | r_remove_alias =>
          Ok ({| projects :=
                   <[selected_project_idx := Project.set_alias selected_project None]>
                     (projects self);
                 default_project_id := default_project_id self |},
              [Alias_removed])
      | d_set_default =>
          Ok ({| projects := projects self;
                 default_project_id := Some (Project.id selected_project) |},
              [Now_default])
      | b_back => Ok (self, [])
      end
  end.

(** The outcome of [_show_select_project_menu]: ["q"], [None], or an index. *)
Inductive selection : Type := sel_q | sel_None | sel_index (i : nat).

Definition _show_select_project_menu (self : t) (selected_project_index : option nat)
  : selection :=
  match selected_project_index with
  | None => sel_None
  | Some i =>
      (* len(select_project_items) - 1, the list being the projects, a
         separator and the quit entry *)
      if (i =? length (projects self) + 2 - 1)%nat then sel_q else sel_index i
  end.

(** How the session stands when the supplied input is used up. *)
Inductive session : Type :=
| Saved (config : Config.t)    (* "q": the config was written, the loop ended *)
| Not_saved                    (* Esc: the loop ended without writing *)
| Awaiting_input (self : t).   (* the loop is at the project list again *)

Fixpoint select_project_menu_loop `{UnicodeDB} (self : t) (inputs : list interaction)
  : result (session * list message) :=
  match inputs with
  | [] => Ok (Awaiting_input self, [])
  | user :: inputs' =>
      match _show_select_project_menu self (picked_project user) with
      | sel_q => Ok (Saved (_make_config self), [Configuration_saved])
      | sel_None => Ok (Not_saved, [Quit_without_saving])
      | sel_index choice =>
          let* '(self', out) := _edit_project_menu_loop self choice user in
          let* '(s, out') := select_project_menu_loop self' inputs' in
          Ok (s, out ++ out')
      end
  end.

End ProjectMenu.

(** ** Command handlers *)

(** The loop of [handle_projects] that keeps the aliases of the stored
    config: [new_project.alias = old_project.alias] whenever
    [old_config.projects.get(new_project.id)] is an object. *)
Definition merge_alias (old_config : Config.t) (new_project : Project.t) : Project.t :=
  match dict_get (Project.id new_project) (Config.projects old_config) with
  | Some old_project => Project.set_alias new_project (Project.alias old_project)
  | None => new_project
  end.

(** [old_config.default_project_id and any(p.id == old_config.default_project_id
    for p in new_projects)] *)
Definition default_project_still_exists
    (old_config : Config.t) (new_projects : list Project.t) : bool :=
  truthy_opt truthy_int (Config.default_project_id old_config)
  && existsb
       (fun p => bool_decide (Some (Project.id p) = Config.default_project_id old_config))
       new_projects.

(** The [ProjectMenu] that [handle_projects] builds before it starts the
    menu loop. *)
Definition merged_menu (old_config : Config.t) (new_projects : list Project.t)
  : ProjectMenu.t :=
  let new_projects := map (merge_alias old_config) new_projects in
  let new_default_id :=
    if default_project_still_exists old_config new_projects
    then Config.default_project_id old_config
    else None in
  {| ProjectMenu.projects := new_projects;
     ProjectMenu.default_project_id := new_default_id |}.

(** [stored] is the content of [toggl_config.json], [None] when
    [_load_json] returns [None]. *)
Definition _load_config (stored : option Config.t) : result Config.t :=
  match stored with
  | None => Raise (SystemExit 1)
  | Some config => Ok config
  end.

Definition handle_projects `{UnicodeDB}
    (stored : option Config.t) (response : option me_data) (inputs : list interaction)
  : result (ProjectMenu.session * list message) :=
  let* old_config := _load_config stored in
  let* new_projects := _fetch_projects response in
  ProjectMenu.select_project_menu_loop (merged_menu old_config new_projects) inputs.

(** The running entry as the API reports it; [te_start] is the value of
    [datetime.fromisoformat] on its ["start"] text. *)
Record time_entry : Type := mk_time_entry {
  te_id : Z;
  te_workspace_id : Z;
  te_start : datetime
}.

(** The mutating requests the handlers send. *)
Inductive request : Type :=
| POST_time_entries
    (workspace_id : Z) (description : str) (project_id : Z) (start : str)
    (billable : bool)
| PATCH_stop (workspace_id : Z) (task_id : Z) (stop : str).

(** [now] is the reading of [_get_current_utc_time()]. *)
Definition handle_start `{UnicodeDB}
    (stored : option Config.t) (current_entry : option time_entry)
    (description : str) (project : option str) (billable : bool) (now : datetime)
  : result request :=
  let* config := _load_config stored in
  match current_entry with
  | Some _ => Raise (SystemExit 1)
  | None =>
      match Config.get_project config project with
      | None => Raise (SystemExit 1)
      | Some project =>
          let* rounded_start_time := _round_time_down now in
          Ok (POST_time_entries
                (Project.workspace_id project) description (Project.id project)
                (_format_iso rounded_start_time)
                (billable && Project.billable project))
      end
  end.

(** The stop time chosen inside the [try] block of [handle_end]. *)
Definition final_end_time (start_time end_time_actual : datetime) : result datetime :=
  let* start_time_rounded_down := _round_time_down start_time in
  let* end_time_rounded_down := _round_time_down end_time_actual in
  if dt_eqb start_time_rounded_down end_time_rounded_down
  then _round_time_up end_time_actual
  else Ok end_time_rounded_down.

Definition handle_end
    (stored : option Config.t) (current_entry : option time_entry) (now : datetime)
  : result request :=
  let* config := _load_config stored in
  match current_entry with
  | None => Raise (SystemExit 1)
  | Some entry =>
      except_Exception_exit
        (let* final := final_end_time (te_start entry) now in
         Ok (PATCH_stop (te_workspace_id entry) (te_id entry) (_format_iso final)))
  end.

(** ** Notions used to state the properties *)

(** The length of a rounding block. *)
Definition QUARTER : Z := timedelta_minutes 15.

(** The instant of an aware value; the wall-clock reading of a naive one. *)
Definition instant (dt : datetime) : Z :=
  naive_micros dt - default 0 (utcoffset dt).

(** The test [start_time_rounded_down == end_time_rounded_down] of
    [handle_end]. *)
Definition same_block (start_time end_time_actual : datetime) : bool :=
  match _round_time_down start_time, _round_time_down end_time_actual with
  | Ok a, Ok b => dt_eqb a b
  | _, _ => false
  end.

(** [dt] is earlier than the last block boundary of [datetime.max], so that
    the boundary after [dt] is still a [datetime]. *)
Definition before_last_quarter (dt : datetime) : Prop :=
  ordinal dt < MAXORDINAL \/ hour dt < 23 \/ minute dt < 45.

(** Concrete timestamps, all on 2024-01-01 unless named otherwise. *)
Definition day_2024_01_01 : Z := 738886.
Definition utc_10_00_00 : datetime := mk_datetime day_2024_01_01 10 0 0 0 (Some 0).
Definition utc_10_05_00 : datetime := mk_datetime day_2024_01_01 10 5 0 0 (Some 0).
Definition utc_10_07_00 : datetime := mk_datetime day_2024_01_01 10 7 0 0 (Some 0).
Definition utc_10_12_00 : datetime := mk_datetime day_2024_01_01 10 12 0 0 (Some 0).
Definition utc_10_15_00 : datetime := mk_datetime day_2024_01_01 10 15 0 0 (Some 0).
Definition utc_10_22_00 : datetime := mk_datetime day_2024_01_01 10 22 0 0 (Some 0).
(** 10:07:00+00:07, the instant of 10:00:00 UTC *)
Definition plus7_10_07_00 : datetime :=
  mk_datetime day_2024_01_01 10 7 0 0 (Some (timedelta_minutes 7)).
(** 15:30:00+05:30, the instant of 10:00:00 UTC *)
Definition plus530_15_30_00 : datetime :=
  mk_datetime day_2024_01_01 15 30 0 0 (Some (timedelta_minutes 330)).
(** 9999-12-31T23:50:00+00:00 *)
Definition utc_9999_12_31_23_50 : datetime := mk_datetime MAXORDINAL 23 50 0 0 (Some 0).

(** The text shape [YYYY-MM-DDTHH:MM:SS+00:00]: whole seconds, no fraction,
    offset zero. *)
Definition is_digit (c : N) : bool := ((48 <=? c) && (c <=? 57))%N.

Definition iso_seconds_utc (text : str) : bool :=
  match text with
  | [y1; y2; y3; y4; sep1; m1; m2; sep2; d1; d2; sep3;
     h1; h2; sep4; mi1; mi2; sep5; s1; s2; sign; z1; z2; sep6; z3; z4] =>
      forallb is_digit [y1; y2; y3; y4; m1; m2; d1; d2; h1; h2; mi1; mi2; s1; s2]
      && bool_decide
           ([sep1; sep2; sep3; sep4; sep5; sign; z1; z2; sep6; z3; z4]
            = [chr_minus; chr_minus; chr_T; chr_colon; chr_colon; chr_plus;
               48%N; 48%N; chr_colon; 48%N; 48%N])
  | _ => false
  end.

(** The project ordering in the words of the specification: rank 0 for a
    client other than the fallback client, 1 for the fallback client, 2 for no
    client; then the client name; then the project name. *)
Definition spec_client_rank (p : Project.t) : Z :=
  match Project.client p with
  | None => 2
  | Some c => if bool_decide (c = DEFAULT_CLIENT) then 1 else 0
  end.

Definition spec_client_name (p : Project.t) : str := default [] (Project.client p).

Definition spec_project_lt (p q : Project.t) : bool :=
  if spec_client_rank p <? spec_client_rank q then true
  else if spec_client_rank q <? spec_client_rank p then false
  else if str_ltb (spec_client_name p) (spec_client_name q) then true
  else if str_ltb (spec_client_name q) (spec_client_name p) then false
  else str_ltb (Project.name p) (Project.name q).

(** Projects for the examples. *)
Definition mk_project (i : Z) (n : string) (c : option string) (a : option string)
  : Project.t :=
  {| Project.id := i; Project.name := str_of_string n; Project.workspace_id := 1;
     Project.client := str_of_string <$> c; Project.alias := str_of_string <$> a;
     Project.billable := true |}.

Definition p_acme : Project.t := mk_project 1 "Website" (Some "Acme"%string) None.
Definition p_acme_b : Project.t := mk_project 2 "Webshop" (Some "Acme"%string) None.
Definition p_zeta : Project.t := mk_project 3 "Audit" (Some "Zeta"%string) None.
Definition p_fallback : Project.t := mk_project 4 "Bench" (Some "Lunatech"%string) None.
Definition p_no_client : Project.t := mk_project 5 "Admin" None None.

(** The lexicographic combination of two orders on pairs. *)
Definition lex_ltb {A B : Type} (ltA : A -> A -> bool) (ltB : B -> B -> bool)
    (x y : A * B) : bool :=
  if ltA (fst x) (fst y) then true
  else if ltA (fst y) (fst x) then false
  else ltB (snd x) (snd y).

(** A boolean relation that is a strict total order. *)
Record strict_total {A : Type} (lt : A -> A -> bool) : Prop := {
  st_irrefl : forall a, lt a a = false;
  st_trans : forall a b c, lt a b = true -> lt b c = true -> lt a c = true;
  st_total : forall a b, lt a b = false -> lt b a = false -> a = b
}.

(** The sort key of the specification, nested for [lex_ltb]. *)
Definition spec_key (p : Project.t) : Z * str * str :=
  (spec_client_rank p, spec_client_name p, Project.name p).

(** An API response for the examples: one active public project, one
    inactive, one private. *)
Definition me_example : me_data :=
  {| md_clients := Some [mk_raw_client (Some 7) (Some (str_of_string "Acme"))];
     md_projects :=
       Some [mk_raw_project 11 (str_of_string "Website") 1 (Some 7) true true false;
             mk_raw_project 12 (str_of_string "Legacy") 1 (Some 7) true false false;
             mk_raw_project 13 (str_of_string "Secret") 1 None false true true] |}.

(** A menu for the examples: the first project has the alias "web"; the user
    opens the second project, chooses "Change Alias" and types " web ". *)
Definition p_web : Project.t := mk_project 1 "Website" (Some "Acme"%string) (Some "web"%string).

Definition menu_example : ProjectMenu.t :=
  {| ProjectMenu.projects := [p_web; p_zeta];
     ProjectMenu.default_project_id := None |}.

Definition user_types_web : interaction :=
  mk_interaction (Some 1%nat) (Some 0%nat) (str_of_string " web ").

(** A remote project whose id is 0, as stored with an alias and as the
    default project, and as fetched again. *)
Definition p_zero_stored : Project.t := mk_project 0 "Internal" None (Some "int"%string).

Definition config_default_zero : Config.t :=
  {| Config.projects := [(0, p_zero_stored)];
     Config.default_project_id := Some 0 |}.

Definition me_zero : me_data :=
  {| md_clients := None;
     md_projects :=
       Some [mk_raw_project 0 (str_of_string "Internal") 1 None true true false] |}.

(** The merge example of the specification: project 5 is stored with alias
    "proj5" and as default; it comes back renamed, or not at all. *)
Definition config_five : Config.t :=
  {| Config.projects := [(5, mk_project 5 "Old name" None (Some "proj5"%string))];
     Config.default_project_id := Some 5 |}.

(** ** Display of projects in the menu *)

(** [prefix] is a prefix of [s]; [needle in hay] on [str]. *)
Fixpoint str_startswith (prefix s : str) : bool :=
  match prefix, s with
  | [], _ => true
  | _ :: _, [] => false
  | x :: prefix', y :: s' => (x =? y)%N && str_startswith prefix' s'
  end.

Fixpoint str_contains (needle hay : str) : bool :=
  str_startswith needle hay
  || match hay with
     | [] => false
     | _ :: hay' => str_contains needle hay'
     end.

Module ProjectDisplay.

(** [Project.__str__]: the f-strings are [f"[{self.alias}] "],
    [f" — {self.client}"] (an em dash, U+2014) and [" (€)"] (U+20AC). *)
Definition __str__ (self : Project.t) : str :=
  let result := [] in
  let result :=
    if truthy_opt truthy_str (Project.alias self)
    then result ++ [91%N] ++ default [] (Project.alias self) ++ [93%N; 32%N]
    else result in
  let result := result ++ Project.name self in
  let result :=
    match Project.client self with
    | Some client =>
        if truthy_str client && negb (str_contains client (Project.name self))
        then result ++ [32%N; 8212%N; 32%N] ++ client
        else result
    | None => result
    end in
  if Project.billable self then result ++ [32%N; 40%N; 8364%N; 41%N] else result.

Definition DEFAULT_tag : str := Eval cbv in str_of_string "[DEFAULT] ".
Definition quit_entry : str := Eval cbv in str_of_string "[q] Save and quit".

(** [ProjectMenu._project_menu_str] *)
Definition _project_menu_str (self : ProjectMenu.t) (project_index : nat)
  : result str :=
  match ProjectMenu.projects self !! project_index with
  | None => Raise IndexError
  | Some project =>
      let project_str := ProjectMenu._shortcut_for_index (Z.of_nat project_index) in
      let project_str :=
        if bool_decide (Some (Project.id project) = ProjectMenu.default_project_id self)
        then project_str ++ DEFAULT_tag
        else project_str in
      Ok (project_str ++ __str__ project)
  end.

(** The [menu_entries] that [_show_select_project_menu] hands to the
    terminal menu: a line per project, a separator ([None]) and the quit
    entry. *)
Fixpoint menu_lines (self : ProjectMenu.t) (indices : list nat)
  : result (list (option str)) :=
  match indices with
  | [] => Ok []
  | idx :: indices' =>
      let* line := _project_menu_str self idx in
      let* lines := menu_lines self indices' in
      Ok (Some line :: lines)
  end.

Definition select_project_items (self : ProjectMenu.t) : result (list (option str)) :=
  let* lines := menu_lines self (seq 0 (length (ProjectMenu.projects self))) in
  Ok (lines ++ [None; Some quit_entry]).

End ProjectDisplay.

(** ** Invariants of the configuration and of the menu *)

(** No alias is carried by two entries of the list. *)
Definition aliases_unique (projects : list Project.t) : Prop :=
  forall i j p q a,
    projects !! i = Some p -> projects !! j = Some q ->
    Project.alias p = Some a -> Project.alias q = Some a -> i = j.

(** The same for the stored dictionary, by key. *)
Definition stored_aliases_unique (projects : dict Project.t) : Prop :=
  forall k1 k2 p q a,
    dict_get k1 projects = Some p -> dict_get k2 projects = Some q ->
    Project.alias p = Some a -> Project.alias q = Some a -> k1 = k2.

(** [q] is [p] up to its alias. *)
Definition same_but_alias (p q : Project.t) : Prop :=
  Project.id q = Project.id p /\ Project.name q = Project.name p /\
  Project.workspace_id q = Project.workspace_id p /\
  Project.client q = Project.client p /\ Project.billable q = Project.billable p.

(** The default project, when there is one, is in the list. *)
Definition default_listed (self : ProjectMenu.t) : Prop :=
  forall d, ProjectMenu.default_project_id self = Some d ->
    d ∈ map Project.id (ProjectMenu.projects self).

(** No element is smaller than one before it. *)
Fixpoint ordered (projects : list Project.t) : Prop :=
  match projects with
  | [] => True
  | p :: projects' =>
      Forall (fun q => Project.__lt__ q p = Ok false) projects' /\ ordered projects'
  end.

(** A response whose projects arrive out of order: one without client, one
    of client Zeta, one of client Acme; the client list has a record without
    name. *)
Definition me_unsorted : me_data :=
  {| md_clients :=
       Some [mk_raw_client (Some 8) (Some (str_of_string "Zeta"));
             mk_raw_client (Some 9) None;
             mk_raw_client (Some 7) (Some (str_of_string "Acme"))];
     md_projects :=
       Some [mk_raw_project 21 (str_of_string "Admin") 1 None true true false;
             mk_raw_project 22 (str_of_string "Audit") 1 (Some 8) true true false;
             mk_raw_project 23 (str_of_string "Website") 1 (Some 7) true true false] |}.

(** A session on a one-project menu: open the project, choose the second
    entry of its edit menu, then "Save and quit". *)
Definition session_second_entry_then_save : list interaction :=
  [mk_interaction (Some 0%nat) (Some 1%nat) [];
   mk_interaction (Some 2%nat) None []].

(** * Verification *)

(** ** The [result] monad *)

Lemma bind_Ok_inv {A B : Type} (r : result A) (k : A -> result B) (b : B) :
  bind r k = Ok b -> exists a, r = Ok a /\ k a = Ok b.
Proof. destruct r as [a|e]; simpl; [eauto | discriminate]. Qed.

(** ** [datetime] arithmetic *)

Ltac unfold_time :=
  unfold QUARTER, timedelta_minutes, US_PER_DAY, US_PER_SECOND, MAXORDINAL in *.

(** Linear arithmetic with division and remainder by constants. *)
Ltac div_lia := Z.div_mod_to_equations; lia.

Lemma dt_replace_Ok (dt : datetime) (m s us : Z) :
  0 <= m < 60 -> 0 <= s < 60 -> 0 <= us < US_PER_SECOND ->
  dt_replace dt m s us =
  Ok (mk_datetime (ordinal dt) (hour dt) m s us (utcoffset dt)).
Proof.
  intros Hm Hs Hus. unfold dt_replace.
  replace ((0 <=? m) && (m <? 60) && (0 <=? s) && (s <? 60)
           && (0 <=? us) && (us <? US_PER_SECOND)) with true; [done|].
  symmetry. repeat (apply andb_true_intro; split); lia.
Qed.

Lemma fields_compare_naive (a b : datetime) :
  valid_datetime a -> valid_datetime b ->
  fields_compare a b = (naive_micros a ?= naive_micros b).
Proof.
  intros (Hoa & Hha & Hma & Hsa & Hua & _) (Hob & Hhb & Hmb & Hsb & Hub & _).
  unfold fields_compare, naive_micros. unfold_time.
  symmetry.
  destruct (Z.compare_spec (ordinal a) (ordinal b));
    [destruct (Z.compare_spec (hour a) (hour b));
     [destruct (Z.compare_spec (minute a) (minute b));
      [destruct (Z.compare_spec (second a) (second b));
       [destruct (Z.compare_spec (microsecond a) (microsecond b))|..]|..]|..]|..];
    first [apply Z.compare_eq_iff | apply Z.compare_lt_iff | apply Z.compare_gt_iff];
    lia.
Qed.

Lemma dt_compare_instant (a b : datetime) :
  valid_datetime a -> valid_datetime b ->
  (utcoffset a = None <-> utcoffset b = None) ->
  dt_compare a b = Ok (instant a ?= instant b).
Proof.
  intros Ha Hb Htz. unfold dt_compare, instant, utc_micros.
  destruct (utcoffset a) as [oa|] eqn:Ea, (utcoffset b) as [ob|] eqn:Eb; simpl.
  - destruct (Z.eqb_spec oa ob) as [->|Hne]; [|done].
    rewrite fields_compare_naive by done. f_equal.
    rewrite !(Z.compare_sub _ (_ - _)), (Z.compare_sub (naive_micros a)).
    f_equal. lia.
  - destruct Htz as [_ Htz]. by specialize (Htz eq_refl).
  - destruct Htz as [Htz _]. by specialize (Htz eq_refl).
  - rewrite fields_compare_naive by done. by rewrite !Z.sub_0_r.
Qed.

Lemma round_time_down_Ok (t : datetime) :
  valid_datetime t ->
  _round_time_down t =
  Ok (mk_datetime (ordinal t) (hour t) (minute t / 15 * 15) 0 0 (utcoffset t)).
Proof.
  intros (_ & _ & Hm & _). unfold _round_time_down.
  apply dt_replace_Ok; unfold_time; div_lia.
Qed.

Lemma round_time_down_facts (t r : datetime) :
  valid_datetime t -> _round_time_down t = Ok r ->
  valid_datetime r /\ utcoffset r = utcoffset t /\ on_boundary r = true /\
  naive_micros r = naive_micros t / QUARTER * QUARTER /\
  naive_micros r <= naive_micros t < naive_micros r + QUARTER.
Proof.
  intros Hv Hr. rewrite round_time_down_Ok in Hr by done.
  injection Hr as <-. destruct Hv as (Ho & Hh & Hm & Hs & Hus & Htz).
  unfold valid_datetime, on_boundary, naive_micros.
  cbn [ordinal hour minute second microsecond utcoffset]. unfold_time.
  assert (Hq : (minute t / 15 * 15) mod 15 = 0) by div_lia.
  rewrite Hq. repeat split; try done; try div_lia.
Qed.

Lemma dt_add_Ok (dt r : datetime) (delta : Z) :
  dt_add dt delta = Ok r ->
  valid_datetime dt ->
  valid_datetime r /\ utcoffset r = utcoffset dt /\
  naive_micros r = naive_micros dt + delta.
Proof.
  unfold dt_add. intros Hr (Ho & Hh & Hm & Hs & Hus & Htz).
  destruct ((0 <? _) && (_ <=? MAXORDINAL)) eqn:Hrange; [|discriminate].
  injection Hr as <-. apply andb_prop in Hrange as [Hlo Hhi].
  unfold valid_datetime, naive_micros in *.
  cbn [ordinal hour minute second microsecond utcoffset]. unfold_time.
  repeat split; try done; try div_lia.
Qed.

Lemma dt_add_quarter (r : datetime) :
  valid_datetime r -> on_boundary r = true ->
  (before_last_quarter r -> exists r', dt_add r QUARTER = Ok r') /\
  (~ before_last_quarter r -> dt_add r QUARTER = Raise OverflowError).
Proof.
  intros (Ho & Hh & Hm & Hs & Hus & Htz) Hb.
  unfold on_boundary in Hb. apply andb_prop in Hb as [Hb Hu].
  apply andb_prop in Hb as [Hq Hz].
  unfold before_last_quarter, dt_add, naive_micros. unfold_time.
  split; intros Hlast.
  - replace ((0 <? _) && (_ <=? 3652059)) with true; [eauto|].
    symmetry. apply andb_true_intro. split; div_lia.
  - replace ((0 <? _) && (_ <=? 3652059)) with false; [done|].
    symmetry. apply andb_false_intro2. div_lia.
Qed.

Ltac solve_valid := vm_compute; repeat split; (done || discriminate).

Lemma dt_le_instant (a b : datetime) :
  valid_datetime a -> valid_datetime b -> utcoffset a = utcoffset b ->
  dt_le a b = Ok (instant a <=? instant b).
Proof.
  intros Ha Hb Htz. unfold dt_le.
  rewrite dt_compare_instant by (done || by rewrite Htz).
  cbn [bind]. unfold Z.leb. by destruct (instant a ?= instant b).
Qed.

Lemma dt_lt_instant (a b : datetime) :
  valid_datetime a -> valid_datetime b ->
  (utcoffset a = None <-> utcoffset b = None) ->
  dt_lt a b = Ok (instant a <? instant b).
Proof.
  intros Ha Hb Htz. unfold dt_lt.
  rewrite dt_compare_instant by done.
  cbn [bind]. unfold Z.ltb. by destruct (instant a ?= instant b).
Qed.

(** ** Rounding *)

(** C2. On every [datetime], [_round_time_down] returns (it has no failure
    mode) a [datetime] with the same date, hour and offset, seconds and
    microseconds zero, and as minute the largest multiple of 15 not above the
    argument's minute; the result is [<=] the argument and less than 15
    minutes before it. *)
Theorem C2_round_time_down_spec (t : datetime) :
  valid_datetime t ->
  exists r,
    _round_time_down t = Ok r /\ valid_datetime r /\
    ordinal r = ordinal t /\ hour r = hour t /\ utcoffset r = utcoffset t /\
    second r = 0 /\ microsecond r = 0 /\
    minute r mod 15 = 0 /\ minute r <= minute t /\
    (forall k, k mod 15 = 0 -> k <= minute t -> k <= minute r) /\
    dt_le r t = Ok true /\
    exists d, dt_sub t r = Ok d /\ 0 <= d < timedelta_minutes 15.
Proof.
  intros Hv. pose proof (round_time_down_Ok t Hv) as Hr.
  destruct (round_time_down_facts t _ Hv Hr) as (Hvr & Htz & _ & _ & Hlo & Hhi).
  eexists. split; [exact Hr|]. split; [exact Hvr|].
  cbn [ordinal hour minute second microsecond utcoffset].
  repeat split; try done; try div_lia.
  - intros k Hk Hle. div_lia.
  - rewrite dt_le_instant by done. f_equal. unfold instant.
    cbn [utcoffset]. lia.
  - unfold dt_sub. cbn [utcoffset]. fold QUARTER.
    destruct (utcoffset t); eexists; (split; [reflexivity|]); lia.
Qed.

Lemma C2_round_time_down_witness :
  valid_datetime utc_10_07_00 /\
  exists r, _round_time_down utc_10_07_00 = Ok r /\ dt_le r utc_10_07_00 = Ok true.
Proof.
  assert (Hv : valid_datetime utc_10_07_00) by solve_valid.
  split; [exact Hv|].
  destruct (C2_round_time_down_spec utc_10_07_00 Hv)
    as (r & Hr & _ & _ & _ & _ & _ & _ & _ & _ & _ & Hle & _).
  exists r. split; [exact Hr | exact Hle].
Defined.

(** The claim C3 as stated fails at the end of the [datetime] range: for
    9999-12-31T23:50:00 the next block boundary is not a [datetime], the
    addition raises [OverflowError] and there is no result to compare. *)
Lemma C3_round_time_up_overflow :
  valid_datetime utc_9999_12_31_23_50 /\
  _round_time_up utc_9999_12_31_23_50 = Raise OverflowError /\
  ~ (exists r, _round_time_up utc_9999_12_31_23_50 = Ok r
               /\ dt_le utc_9999_12_31_23_50 r = Ok true).
Proof.
  split; [solve_valid|]. split; [reflexivity|].
  intros (r & Hr & _). discriminate Hr.
Qed.

(** What [_round_time_up] returns, and when. *)
Lemma round_time_up_facts (t : datetime) :
  valid_datetime t ->
  (forall r, _round_time_up t = Ok r ->
     valid_datetime r /\ on_boundary r = true /\ utcoffset r = utcoffset t /\
     0 <= instant r - instant t < QUARTER) /\
  (on_boundary t = true \/ before_last_quarter t -> exists r, _round_time_up t = Ok r) /\
  (on_boundary t = false -> ~ before_last_quarter t ->
   _round_time_up t = Raise OverflowError).
Proof.
  intros Hv. unfold _round_time_up.
  pose proof (round_time_down_Ok t Hv) as Hd.
  destruct (round_time_down_facts t _ Hv Hd) as (Hvd & Htz & Hbd & _ & Hlo & Hhi).
  set (down := mk_datetime _ _ _ _ _ _) in *.
  destruct (dt_add_quarter down Hvd Hbd) as [Hin Hout].
  assert (Hlast : before_last_quarter t <-> before_last_quarter down).
  { destruct Hv as (_ & _ & Hm & _). unfold before_last_quarter, down.
    cbn [ordinal hour minute]. split; intros [?|[?|?]]; auto; right; right; div_lia. }
  destruct (on_boundary t) eqn:Hb.
  - split; [|split; [eauto|done]].
    intros r [= <-]. split_and!; try done; unfold_time; lia.
  - rewrite Hd. cbn [bind]. fold QUARTER. split; [|split].
    + intros r Hr. destruct (dt_add_Ok _ _ _ Hr Hvd) as (Hvr & Htzr & Hn).
      assert (Htz' : utcoffset r = utcoffset t) by congruence.
      unfold instant. rewrite Htz'.
      assert (Hbr : on_boundary r = true).
      { clear -Hbd Hn Hvr Hvd. unfold on_boundary, naive_micros in *.
        destruct Hvr as (? & ? & ? & ? & ? & _), Hvd as (? & ? & ? & ? & ? & _).
        apply andb_prop in Hbd as [Hbd ?]. apply andb_prop in Hbd as [? ?].
        unfold_time. repeat (apply andb_true_intro; split); div_lia. }
      assert (Hstrict : naive_micros down < naive_micros t).
      { clear -Hb Hv. destruct Hv as (? & ? & ? & ? & ? & _).
        unfold on_boundary in Hb. unfold naive_micros, down.
        cbn [ordinal hour minute second microsecond]. unfold_time.
        destruct (Z.eqb_spec (minute t mod 15) 0), (Z.eqb_spec (second t) 0),
          (Z.eqb_spec (microsecond t) 0); try discriminate Hb; div_lia. }
      split_and!; try done; unfold_time; lia.
    + intros [?|Hl]; [done|]. by apply Hin, Hlast.
    + intros _ Hl. apply Hout. by rewrite <- Hlast.
Qed.

(** C3 (amended). On a block boundary [_round_time_up] returns its argument;
    otherwise it is [_round_time_down] followed by the addition of 15 minutes.
    Whatever it returns is a boundary [>=] the argument and less than 15
    minutes after it.  It returns for every argument on a boundary or before
    9999-12-31T23:45:00, and raises [OverflowError] for the others. *)
Theorem C3_round_time_up_spec (t : datetime) :
  valid_datetime t ->
  (on_boundary t = true -> _round_time_up t = Ok t) /\
  (on_boundary t = false ->
   _round_time_up t =
   (let* down := _round_time_down t in dt_add down (timedelta_minutes 15))) /\
  (forall r, _round_time_up t = Ok r ->
     valid_datetime r /\ on_boundary r = true /\ utcoffset r = utcoffset t /\
     dt_le t r = Ok true /\ 0 <= instant r - instant t < QUARTER) /\
  (on_boundary t = true \/ before_last_quarter t -> exists r, _round_time_up t = Ok r) /\
  (on_boundary t = false -> ~ before_last_quarter t ->
   _round_time_up t = Raise OverflowError).
Proof.
  intros Hv. destruct (round_time_up_facts t Hv) as (Hret & Hex & Hover).
  split; [|split; [|split; [|split]]].
  - intros Hb. unfold _round_time_up. by rewrite Hb.
  - intros Hb. unfold _round_time_up. by rewrite Hb.
  - intros r Hr. destruct (Hret r Hr) as (Hvr & Hbr & Htz & Hlo & Hhi).
    rewrite dt_le_instant by done.
    replace (instant t <=? instant r) with true by (symmetry; apply Z.leb_le; lia).
    by split_and!.
  - exact Hex.
  - exact Hover.
Qed.

Lemma C3_round_time_up_witness :
  valid_datetime utc_10_12_00 /\
  (forall r, _round_time_up utc_10_12_00 = Ok r -> dt_le utc_10_12_00 r = Ok true) /\
  exists r, _round_time_up utc_10_12_00 = Ok r.
Proof.
  assert (Hv : valid_datetime utc_10_12_00) by solve_valid.
  destruct (C3_round_time_up_spec utc_10_12_00 Hv) as (_ & _ & Hle & Hex & _).
  split; [exact Hv|]. split.
  - intros r Hr. exact (proj1 (proj2 (proj2 (proj2 (Hle r Hr))))).
  - apply Hex. right. left. vm_compute. reflexivity.
Defined.

(** ** The stop-time policy of [handle_end] *)

Lemma dt_eqb_true (a b : datetime) :
  valid_datetime a -> valid_datetime b -> dt_eqb a b = true ->
  (utcoffset a = None <-> utcoffset b = None) /\ instant a = instant b.
Proof.
  intros Ha Hb. unfold dt_eqb.
  assert (Hcases : (utcoffset a = None <-> utcoffset b = None)
                   \/ dt_compare a b = Raise TypeError).
  { unfold dt_compare.
    destruct (utcoffset a), (utcoffset b); auto; left; split; done. }
  destruct Hcases as [Htz | Herr]; [|by rewrite Herr].
  rewrite dt_compare_instant by done.
  destruct (Z.compare_spec (instant a) (instant b)); done.
Qed.

Lemma final_end_time_unfold (start now : datetime) :
  valid_datetime start -> valid_datetime now ->
  final_end_time start now =
  if same_block start now then _round_time_up now else _round_time_down now.
Proof.
  intros Hs Hn. unfold final_end_time, same_block.
  rewrite (round_time_down_Ok start), (round_time_down_Ok now) by done.
  cbn [bind]. by destruct (dt_eqb _ _).
Qed.

(** In the same-block case the rounded start is the block of [now], and
    [start] lies in it. *)
Lemma same_block_start_in_block (start now down : datetime) :
  valid_datetime start -> valid_datetime now ->
  same_block start now = true -> _round_time_down now = Ok down ->
  (utcoffset start = None <-> utcoffset now = None) /\
  instant down <= instant start < instant down + QUARTER.
Proof.
  intros Hs Hn Hsame Hd. unfold same_block in Hsame.
  rewrite Hd in Hsame. pose proof (round_time_down_Ok start Hs) as Hrs.
  rewrite Hrs in Hsame.
  destruct (round_time_down_facts _ _ Hs Hrs) as (Hva & Htza & _ & _ & Hlo & Hhi).
  destruct (round_time_down_facts _ _ Hn Hd) as (Hvb & Htzb & _).
  destruct (dt_eqb_true _ _ Hva Hvb Hsame) as [Htz Heq].
  rewrite Htza, Htzb in Htz. split; [exact Htz|].
  rewrite <- Heq. unfold instant. rewrite Htza. lia.
Qed.

(** The two stop-policy examples of the specification. *)
Example stop_policy_same_block :
  final_end_time utc_10_07_00 utc_10_12_00 = Ok utc_10_15_00
  /\ dt_lt utc_10_07_00 utc_10_15_00 = Ok true.
Proof. split; reflexivity. Qed.

Example stop_policy_next_block :
  final_end_time utc_10_07_00 utc_10_22_00 = Ok utc_10_15_00.
Proof. reflexivity. Qed.

(** The claim C1 as stated fails when [now] is exactly on a block boundary:
    a start at 10:00:00 and a current time of 10:00:00.000000 are in the same
    block with zero elapsed time, [_round_time_up] leaves [now] unchanged, and
    the stop time is equal to the start, not after it. *)
Lemma C1_stop_not_after_start :
  valid_datetime utc_10_00_00 /\
  same_block utc_10_00_00 utc_10_00_00 = true /\
  dt_sub utc_10_00_00 utc_10_00_00 = Ok 0 /\
  final_end_time utc_10_00_00 utc_10_00_00 = Ok utc_10_00_00 /\
  dt_lt utc_10_00_00 utc_10_00_00 = Ok false.
Proof. split; [solve_valid|]. repeat split; reflexivity. Qed.

(** C1 (amended). The stop time of the end command is [_round_time_up now]
    when the rounded start equals the rounded current time and
    [_round_time_down now] otherwise, and that is the time [handle_end] sends.
    In the same-block case the stop time is strictly after the start whenever
    [now] is not exactly on a block boundary; when it is, the stop time is
    [now] itself, which is not after the start.  A stop time is produced
    except when rounding up leaves the [datetime] range. *)
Theorem C1_stop_time_policy (start now : datetime) :
  valid_datetime start -> valid_datetime now ->
  final_end_time start now =
    (if same_block start now then _round_time_up now else _round_time_down now) /\
  (forall stored task_id workspace_id,
     handle_end (Some stored) (Some (mk_time_entry task_id workspace_id start)) now =
     except_Exception_exit
       (let* final :=
          (if same_block start now then _round_time_up now else _round_time_down now) in
        Ok (PATCH_stop workspace_id task_id (_format_iso final)))) /\
  (same_block start now = true -> on_boundary now = false ->
   forall stop, final_end_time start now = Ok stop -> dt_lt start stop = Ok true) /\
  (same_block start now = true -> on_boundary now = true ->
   final_end_time start now = Ok now /\ dt_le now start = Ok true) /\
  (same_block start now = false \/ on_boundary now = true \/ before_last_quarter now ->
   exists stop, final_end_time start now = Ok stop).
Proof.
  intros Hs Hn. pose proof (final_end_time_unfold start now Hs Hn) as Hfinal.
  pose proof (round_time_down_Ok now Hn) as Hd.
  destruct (round_time_down_facts _ _ Hn Hd) as (Hvd & Htzd & _ & _ & Hlo & Hhi).
  destruct (round_time_up_facts now Hn) as (Hup_r & Hup_ex & _).
  assert (Hup_b : on_boundary now = true -> _round_time_up now = Ok now).
  { intros Hb. unfold _round_time_up. by rewrite Hb. }
  assert (Hup_nb : on_boundary now = false ->
            _round_time_up now =
            (let* down := _round_time_down now in dt_add down (timedelta_minutes 15))).
  { intros Hb. unfold _round_time_up. by rewrite Hb. }
  split; [exact Hfinal|]. split; [|split; [|split]].
  - intros stored task_id workspace_id. unfold handle_end.
    cbn [_load_config bind te_start te_workspace_id te_id]. by rewrite Hfinal.
  - intros Hsame Hnb stop Hstop. rewrite Hfinal, Hsame in Hstop.
    destruct (same_block_start_in_block _ _ _ Hs Hn Hsame Hd) as [Htz [_ Hin]].
    destruct (Hup_r stop Hstop) as (Hvs & _ & Htzs & _).
    rewrite Hup_nb, Hd in Hstop by done. cbn [bind] in Hstop.
    destruct (dt_add_Ok _ _ _ Hstop Hvd) as (_ & _ & Hadd).
    rewrite dt_lt_instant by (done || by rewrite Htzs).
    f_equal. apply Z.ltb_lt.
    revert Hin. unfold instant. rewrite Htzs, Htzd. fold QUARTER in Hadd. lia.
  - intros Hsame Hb. rewrite Hfinal, Hsame, Hup_b by done. split; [done|].
    destruct (same_block_start_in_block _ _ _ Hs Hn Hsame Hd) as [Htz [Hge _]].
    assert (Heq : naive_micros now = naive_micros (mk_datetime (ordinal now) (hour now)
                    (minute now / 15 * 15) 0 0 (utcoffset now))).
    { clear -Hb Hn. destruct Hn as (? & ? & ? & ? & ? & _).
      unfold on_boundary in Hb. unfold naive_micros.
      cbn [ordinal hour minute second microsecond]. unfold_time.
      destruct (Z.eqb_spec (minute now mod 15) 0), (Z.eqb_spec (second now) 0),
        (Z.eqb_spec (microsecond now) 0); try discriminate Hb; div_lia. }
    unfold dt_le. rewrite dt_compare_instant by (done || by symmetry).
    cbn [bind]. f_equal.
    assert (Hle : instant now <= instant start).
    { revert Hge. unfold instant. rewrite Htzd. lia. }
    destruct (Z.compare_spec (instant now) (instant start)); (done || lia).
  - intros Hcase. rewrite Hfinal. destruct (same_block start now); [|eauto].
    destruct Hcase as [?|Hcase]; [done|]. by apply Hup_ex.
Qed.

Lemma C1_stop_time_policy_witness :
  valid_datetime utc_10_07_00 /\ valid_datetime utc_10_12_00 /\
  final_end_time utc_10_07_00 utc_10_12_00 =
    (if same_block utc_10_07_00 utc_10_12_00 then _round_time_up utc_10_12_00
     else _round_time_down utc_10_12_00) /\
  dt_lt utc_10_07_00 utc_10_15_00 = Ok true.
Proof.
  assert (Hs : valid_datetime utc_10_07_00) by solve_valid.
  assert (Hn : valid_datetime utc_10_12_00) by solve_valid.
  destruct (C1_stop_time_policy utc_10_07_00 utc_10_12_00 Hs Hn)
    as (Hfinal & _ & Hafter & _).
  split; [exact Hs|]. split; [exact Hn|]. split; [exact Hfinal|].
  apply Hafter; reflexivity.
Defined.

(** ** Offsets and the wire format *)

Lemma dt_eqb_instant (a b : datetime) :
  valid_datetime a -> valid_datetime b ->
  (utcoffset a = None <-> utcoffset b = None) ->
  dt_eqb a b = (instant a =? instant b).
Proof.
  intros Ha Hb Htz. unfold dt_eqb. rewrite dt_compare_instant by done.
  destruct (Z.compare_spec (instant a) (instant b)),
    (Z.eqb_spec (instant a) (instant b)); (done || lia).
Qed.

Lemma floor_quarter_shift (n off : Z) :
  off mod QUARTER = 0 ->
  n / QUARTER * QUARTER - off = (n - off) / QUARTER * QUARTER.
Proof. change QUARTER with 900000000. intros Hq. div_lia. Qed.

(** For an aware start whose offset is a whole number of quarters of an hour,
    rounding the wall-clock fields is rounding the instant. *)
Lemma same_block_aware (start now : datetime) (off : Z) :
  valid_datetime start -> valid_datetime now ->
  utcoffset start = Some off -> off mod QUARTER = 0 ->
  same_block start now =
  match utcoffset now with
  | None => false
  | Some off_now =>
      utc_micros start off / QUARTER * QUARTER
      =? naive_micros now / QUARTER * QUARTER - off_now
  end.
Proof.
  intros Hs Hn Hoff Hq. unfold same_block.
  destruct (_round_time_down start) as [a|] eqn:Ha;
    [|by rewrite round_time_down_Ok in Ha].
  destruct (_round_time_down now) as [b|] eqn:Hb;
    [|by rewrite round_time_down_Ok in Hb].
  destruct (round_time_down_facts _ _ Hs Ha) as (Hva & Htza & _ & Hna & _).
  destruct (round_time_down_facts _ _ Hn Hb) as (Hvb & Htzb & _ & Hnb & _).
  rewrite Hoff in Htza.
  destruct (utcoffset now) as [off_now|] eqn:Hnow.
  - rewrite dt_eqb_instant by (done || rewrite Htza, Htzb; done).
    unfold instant. rewrite Htza, Htzb, Hna, Hnb. cbn [default].
    unfold utc_micros. by rewrite floor_quarter_shift.
  - unfold dt_eqb, dt_compare. by rewrite Htza, Htzb.
Qed.

Lemma is_digit_digit (n : Z) : is_digit (digit n) = true.
Proof.
  unfold is_digit, digit. pose proof (Z.mod_pos_bound n 10 ltac:(lia)).
  apply andb_true_intro. split; apply N.leb_le; lia.
Qed.

Lemma format_iso_utc (dt : datetime) :
  utcoffset dt = Some 0 -> iso_seconds_utc (_format_iso dt) = true.
Proof.
  intros Htz. unfold _format_iso, isoformat_seconds, isoformat_date.
  rewrite Htz. destruct (_ord2ymd (ordinal dt)) as [[y m] d].
  change (format_offset (Some 0)) with [chr_plus; 48%N; 48%N; chr_colon; 48%N; 48%N].
  unfold pad4, pad2. cbn [app iso_seconds_utc forallb].
  rewrite !is_digit_digit. reflexivity.
Qed.

Lemma dt_replace_utcoffset (dt r : datetime) (m s us : Z) :
  dt_replace dt m s us = Ok r -> utcoffset r = utcoffset dt.
Proof. unfold dt_replace. case_match; [|done]. by intros [= <-]. Qed.

Lemma dt_add_utcoffset (dt r : datetime) (delta : Z) :
  dt_add dt delta = Ok r -> utcoffset r = utcoffset dt.
Proof. unfold dt_add. case_match; [|done]. by intros [= <-]. Qed.

Lemma final_end_time_utcoffset (start now stop : datetime) :
  final_end_time start now = Ok stop -> utcoffset stop = utcoffset now.
Proof.
  unfold final_end_time. intros H.
  apply bind_Ok_inv in H as (a & _ & H). apply bind_Ok_inv in H as (b & Hb & H).
  apply dt_replace_utcoffset in Hb. destruct (dt_eqb a b).
  - unfold _round_time_up in H. destruct (on_boundary now); [by injection H as <-|].
    apply bind_Ok_inv in H as (d & Hd & H).
    apply dt_replace_utcoffset in Hd. apply dt_add_utcoffset in H. congruence.
  - by injection H as <-.
Qed.

(** The claim C9 as stated fails: [handle_end] rounds the wall-clock fields
    of the parsed start as they are.  10:00:00+00:00 and 10:07:00+00:07 are
    the same instant, yet at 10:05:00 UTC the first is stopped at 10:15:00
    and the second at 10:00:00. *)
Lemma C9_offset_changes_stop :
  valid_datetime utc_10_00_00 /\ valid_datetime plus7_10_07_00 /\
  dt_eqb utc_10_00_00 plus7_10_07_00 = true /\
  same_block utc_10_00_00 utc_10_05_00 = true /\
  same_block plus7_10_07_00 utc_10_05_00 = false /\
  final_end_time utc_10_00_00 utc_10_05_00 = Ok utc_10_15_00 /\
  final_end_time plus7_10_07_00 utc_10_05_00 = Ok utc_10_00_00.
Proof. do 2 (split; [solve_valid|]). repeat split; reflexivity. Qed.

(** C9 (amended). [handle_end] does not convert the parsed start to UTC; it
    rounds its wall-clock fields.  For starts whose UTC offset is a whole
    multiple of 15 minutes (UTC itself included) the same-block decision, the
    stop time and the request depend only on the instant of the start.  The
    timestamps of the requests, computed from the UTC clock reading, have the
    shape [YYYY-MM-DDTHH:MM:SS+00:00], and [_format_iso] ignores the
    microsecond field. *)
Theorem C9_offsets_and_wire_format `{UnicodeDB}
    (start1 start2 now : datetime) (off1 off2 : Z) :
  valid_datetime start1 -> valid_datetime start2 -> valid_datetime now ->
  utcoffset start1 = Some off1 -> utcoffset start2 = Some off2 ->
  off1 mod QUARTER = 0 -> off2 mod QUARTER = 0 ->
  utc_micros start1 off1 = utc_micros start2 off2 ->
  same_block start1 now = same_block start2 now /\
  final_end_time start1 now = final_end_time start2 now /\
  (forall stored task_id workspace_id,
     handle_end stored (Some (mk_time_entry task_id workspace_id start1)) now =
     handle_end stored (Some (mk_time_entry task_id workspace_id start2)) now) /\
  (utcoffset now = Some 0 ->
   (forall stored entry workspace_id task_id stop,
      handle_end stored entry now = Ok (PATCH_stop workspace_id task_id stop) ->
      iso_seconds_utc stop = true) /\
   (forall stored entry description project billable workspace_id d p start b,
      handle_start stored entry description project billable now
      = Ok (POST_time_entries workspace_id d p start b) ->
      iso_seconds_utc start = true)) /\
  (forall o h m s us tz,
     _format_iso (mk_datetime o h m s us tz) = _format_iso (mk_datetime o h m s 0 tz)).
Proof.
  intros Hv1 Hv2 Hn Hoff1 Hoff2 Hq1 Hq2 Hsame.
  assert (Hblock : same_block start1 now = same_block start2 now).
  { rewrite (same_block_aware start1 now off1), (same_block_aware start2 now off2)
      by done. by rewrite Hsame. }
  assert (Hfinal : final_end_time start1 now = final_end_time start2 now).
  { rewrite !final_end_time_unfold by done. by rewrite Hblock. }
  split; [exact Hblock|]. split; [exact Hfinal|]. split; [|split; [|done]].
  - intros stored task_id workspace_id. unfold handle_end.
    cbn [te_start te_workspace_id te_id]. by rewrite Hfinal.
  - intros Hutc. split.
    + intros stored entry workspace_id task_id stop. unfold handle_end.
      destruct stored as [config|]; [|done]. cbn [_load_config bind].
      destruct entry as [entry|]; [|done].
      destruct (final_end_time (te_start entry) now) as [final|e] eqn:Hf.
      * cbn [bind except_Exception_exit]. intros [= _ _ <-].
        apply format_iso_utc. apply final_end_time_utcoffset in Hf. congruence.
      * cbn [bind except_Exception_exit]. by destruct e.
    + intros stored entry description project billable workspace_id d p start b.
      unfold handle_start.
      destruct stored as [config|]; [|done]. cbn [_load_config bind].
      destruct entry; [done|]. destruct (Config.get_project _ _); [|done].
      intros Hreq. apply bind_Ok_inv in Hreq as (r & Hr & [= _ _ _ <- _]).
      apply format_iso_utc. apply dt_replace_utcoffset in Hr. congruence.
Qed.

Lemma C9_offsets_and_wire_format_witness :
  valid_datetime utc_10_00_00 /\ valid_datetime plus530_15_30_00 /\
  valid_datetime utc_10_05_00 /\
  utcoffset plus530_15_30_00 = Some (timedelta_minutes 330) /\
  timedelta_minutes 330 mod QUARTER = 0 /\
  utc_micros utc_10_00_00 0 = utc_micros plus530_15_30_00 (timedelta_minutes 330) /\
  final_end_time utc_10_00_00 utc_10_05_00 = final_end_time plus530_15_30_00 utc_10_05_00.
Proof.
  assert (Hv1 : valid_datetime utc_10_00_00) by solve_valid.
  assert (Hv2 : valid_datetime plus530_15_30_00) by solve_valid.
  assert (Hn : valid_datetime utc_10_05_00) by solve_valid.
  split; [exact Hv1|]. split; [exact Hv2|]. split; [exact Hn|].
  split; [reflexivity|]. split; [reflexivity|]. split; [reflexivity|].
  exact (proj1 (proj2 (C9_offsets_and_wire_format (H := ascii_db)
           utc_10_00_00 plus530_15_30_00 utc_10_05_00 0 (timedelta_minutes 330)
           Hv1 Hv2 Hn eq_refl eq_refl eq_refl eq_refl eq_refl))).
Defined.

(** ** The project ordering *)

Lemma str_ltb_irrefl (a : str) : str_ltb a a = false.
Proof.
  induction a as [|x a IH]; [done|]. cbn [str_ltb].
  by rewrite N.ltb_irrefl, N.eqb_refl.
Qed.

Lemma str_ltb_trans (a b c : str) :
  str_ltb a b = true -> str_ltb b c = true -> str_ltb a c = true.
Proof.
  revert b c. induction a as [|x a IH]; intros [|y b] [|z c]; cbn [str_ltb];
    try done.
  destruct (N.ltb_spec x y), (N.eqb_spec x y), (N.ltb_spec y z), (N.eqb_spec y z),
    (N.ltb_spec x z), (N.eqb_spec x z); try (done || lia).
  apply IH.
Qed.

Lemma str_ltb_total (a b : str) :
  str_ltb a b = false -> str_ltb b a = false -> a = b.
Proof.
  revert b. induction a as [|x a IH]; intros [|y b]; cbn [str_ltb]; try done.
  destruct (N.ltb_spec x y), (N.eqb_spec x y), (N.ltb_spec y x), (N.eqb_spec y x);
    try (done || lia).
  intros Hab Hba. subst y. f_equal. by apply IH.
Qed.

Lemma str_eqb_eq (a b : str) : str_eqb a b = true <-> a = b.
Proof. unfold str_eqb. apply bool_decide_eq_true. Qed.

(** [__lt__] never raises, and it is the ordering of the specification. *)
Lemma project_lt_spec (p q : Project.t) :
  Project.__lt__ p q = Ok (spec_project_lt p q).
Proof.
  destruct p as [ip np wp cp ap bp], q as [iq nq wq cq aq bq].
  unfold Project.__lt__, Project._get_sort_key, spec_project_lt,
    spec_client_rank, spec_client_name, str_eqb.
  cbn [Project.client Project.name].
  destruct cp as [cp|], cq as [cq|];
    cbn [tuple_lt value_eqb value_lt default id]; unfold str_eqb;
    repeat case_bool_decide; subst;
    cbn [Z.eqb Z.ltb Z.compare Pos.compare Pos.eqb];
    rewrite ?str_ltb_irrefl; try done.
  destruct (str_ltb cp cq) eqn:Hpq; [done|].
  destruct (str_ltb cq cp) eqn:Hqp; [done|].
  by destruct (str_ltb_total _ _ Hpq Hqp).
Qed.

Section LexOrder.
Context {A B : Type} (ltA : A -> A -> bool) (ltB : B -> B -> bool).
Hypothesis HA : strict_total ltA.
Hypothesis HB : strict_total ltB.

Lemma lex_ltb_strict_total : strict_total (lex_ltb ltA ltB).
Proof.
  destruct HA as [irA trA toA], HB as [irB trB toB]. split.
  - intros [a b]. unfold lex_ltb. cbn [fst snd]. by rewrite irA, irB.
  - intros [a1 b1] [a2 b2] [a3 b3]. unfold lex_ltb. cbn [fst snd].
    destruct (ltA a1 a2) eqn:H12.
    + intros _. destruct (ltA a2 a3) eqn:H23.
      * intros _. by rewrite (trA _ _ _ H12 H23).
      * destruct (ltA a3 a2) eqn:H32; [done|]. intros _.
        rewrite (toA _ _ H23 H32) in H12. by rewrite H12.
    + destruct (ltA a2 a1) eqn:H21; [done|].
      rewrite (toA _ _ H12 H21). intros Hb12.
      destruct (ltA a2 a3); [done|]. destruct (ltA a3 a2); [done|]. by apply trB.
  - intros [a1 b1] [a2 b2]. unfold lex_ltb. cbn [fst snd].
    destruct (ltA a1 a2) eqn:H12; [done|].
    destruct (ltA a2 a1) eqn:H21; [done|].
    intros Hb12 Hb21. by rewrite (toA _ _ H12 H21), (toB _ _ Hb12 Hb21).
Qed.

End LexOrder.

Lemma Z_ltb_strict_total : strict_total Z.ltb.
Proof. split; intros; lia. Qed.

Lemma str_ltb_strict_total : strict_total str_ltb.
Proof.
  split; [apply str_ltb_irrefl | apply str_ltb_trans | apply str_ltb_total].
Qed.

Lemma spec_key_strict_total :
  strict_total (lex_ltb (lex_ltb Z.ltb str_ltb) str_ltb).
Proof.
  apply lex_ltb_strict_total; [apply lex_ltb_strict_total|];
    (apply Z_ltb_strict_total || apply str_ltb_strict_total).
Qed.

Lemma spec_project_lt_key (p q : Project.t) :
  spec_project_lt p q = lex_ltb (lex_ltb Z.ltb str_ltb) str_ltb (spec_key p) (spec_key q).
Proof.
  unfold spec_project_lt, lex_ltb, spec_key. cbn [fst snd].
  destruct (spec_client_rank p <? spec_client_rank q),
    (spec_client_rank q <? spec_client_rank p); done.
Qed.

(** C5. [Project.__lt__] never raises, on projects without a client
    included.  It is the ordering by client rank (another client, then the
    fallback client, then no client), then client name, then project name,
    and it is a strict weak ordering: irreflexive, transitive, with
    transitive incomparability.  On the example of the specification it gives
    Acme < Zeta < fallback client < no client, the project name breaking
    ties. *)
Theorem C5_project_ordering :
  (forall p q, Project.__lt__ p q = Ok (spec_project_lt p q)) /\
  (forall p, Project.__lt__ p p = Ok false) /\
  (forall p q r,
     Project.__lt__ p q = Ok true -> Project.__lt__ q r = Ok true ->
     Project.__lt__ p r = Ok true) /\
  (forall p q r,
     Project.__lt__ p q = Ok false -> Project.__lt__ q p = Ok false ->
     Project.__lt__ q r = Ok false -> Project.__lt__ r q = Ok false ->
     Project.__lt__ p r = Ok false /\ Project.__lt__ r p = Ok false) /\
  (Project.__lt__ p_acme_b p_acme = Ok true /\
   Project.__lt__ p_acme p_zeta = Ok true /\
   Project.__lt__ p_zeta p_fallback = Ok true /\
   Project.__lt__ p_fallback p_no_client = Ok true) /\
  list_sort Project.__lt__ [p_no_client; p_acme; p_fallback; p_zeta; p_acme_b]
  = Ok [p_acme_b; p_acme; p_zeta; p_fallback; p_no_client].
Proof.
  destruct spec_key_strict_total as [Hirr Htrans Htotal].
  split; [exact project_lt_spec|]. split; [|split; [|split; [|split]]].
  - intros p. by rewrite project_lt_spec, spec_project_lt_key, Hirr.
  - intros p q r. rewrite !project_lt_spec, !spec_project_lt_key.
    intros [= Hpq] [= Hqr]. f_equal. eapply Htrans; eassumption.
  - intros p q r. rewrite !project_lt_spec, !spec_project_lt_key.
    intros [= Hpq] [= Hqp] [= Hqr] [= Hrq].
    rewrite (Htotal _ _ Hpq Hqp), <- (Htotal _ _ Hrq Hqr). by rewrite Hirr.
  - repeat split; reflexivity.
  - reflexivity.
Qed.

(** ** The menu shortcuts *)

Lemma str_of_int_digit (i : Z) : 0 <= i < 10 -> str_of_int i = [Z.to_N (48 + i)].
Proof.
  intros Hi.
  assert (Hcases : i = 0 \/ i = 1 \/ i = 2 \/ i = 3 \/ i = 4 \/ i = 5 \/ i = 6
                   \/ i = 7 \/ i = 8 \/ i = 9) by lia.
  repeat (destruct Hcases as [->|Hcases]; [reflexivity|]). by subst.
Qed.

(** The label by range of the index. *)
Lemma shortcut_for_index_cases (i : Z) :
  0 <= i ->
  ProjectMenu._shortcut_for_index i =
  if i <? 10 then [91%N; Z.to_N (48 + i); 93%N; 32%N]
  else if i <? 26 then [91%N; Z.to_N (87 + i); 93%N; 32%N]
  else if i <? 34 then [91%N; Z.to_N (88 + i); 93%N; 32%N]
  else [].
Proof.
  intros Hi. unfold ProjectMenu._shortcut_for_index, ProjectMenu.shortcut_from_char,
    chr, ord_a, ord_q, ord_z.
  destruct (Z.ltb_spec i 10); [by rewrite str_of_int_digit by lia|].
  destruct (Z.leb_spec 113 (i - 10 + 97)), (Z.ltb_spec i 26); try lia.
  - destruct (Z.ltb_spec (i - 10 + 97 + 1) 122), (Z.ltb_spec i 34); try lia; [|done].
    cbn [truthy_str app]. do 2 f_equal. lia.
  - destruct (Z.ltb_spec (i - 10 + 97) 122); try lia.
    cbn [truthy_str app]. do 2 f_equal. lia.
Qed.

(** C10. [_shortcut_for_index] is a function of the index alone.  Indices 0-9
    get their digit, 10-25 the letters a-p, 26-33 the letters r-y, 34 and
    above no label; no label contains the letter q, and an index with a label
    shares it with no other index. *)
Theorem C10_shortcut_for_index (i : Z) :
  0 <= i ->
  (i < 10 -> ProjectMenu._shortcut_for_index i = [91%N; Z.to_N (48 + i); 93%N; 32%N]) /\
  (10 <= i < 26 ->
   ProjectMenu._shortcut_for_index i = [91%N; Z.to_N (97 + (i - 10)); 93%N; 32%N]) /\
  (26 <= i < 34 ->
   ProjectMenu._shortcut_for_index i = [91%N; Z.to_N (114 + (i - 26)); 93%N; 32%N]) /\
  (34 <= i -> ProjectMenu._shortcut_for_index i = []) /\
  ~ In (Z.to_N ord_q) (ProjectMenu._shortcut_for_index i) /\
  (forall j, 0 <= j -> j <> i -> ProjectMenu._shortcut_for_index i <> [] ->
             ProjectMenu._shortcut_for_index i <> ProjectMenu._shortcut_for_index j).
Proof.
  intros Hi. rewrite (shortcut_for_index_cases i Hi).
  split_and!.
  - intros H. by destruct (Z.ltb_spec i 10); [|lia].
  - intros H. destruct (Z.ltb_spec i 10), (Z.ltb_spec i 26); try lia.
    do 2 f_equal. lia.
  - intros H. destruct (Z.ltb_spec i 10), (Z.ltb_spec i 26), (Z.ltb_spec i 34);
      try lia. do 2 f_equal. lia.
  - intros H. by destruct (Z.ltb_spec i 10), (Z.ltb_spec i 26), (Z.ltb_spec i 34);
      try lia.
  - unfold ord_q.
    destruct (Z.ltb_spec i 10), (Z.ltb_spec i 26), (Z.ltb_spec i 34);
      cbn [In]; lia.
  - intros j Hj Hne. rewrite (shortcut_for_index_cases j Hj).
    destruct (Z.ltb_spec i 10), (Z.ltb_spec i 26), (Z.ltb_spec i 34),
      (Z.ltb_spec j 10), (Z.ltb_spec j 26), (Z.ltb_spec j 34);
      try lia; try done; intros _ [= Heq]; lia.
Qed.

Lemma C10_shortcut_for_index_witness :
  0 <= 26 /\ ProjectMenu._shortcut_for_index 26 = str_of_string "[r] ".
Proof.
  split; [lia|].
  refine (proj1 (proj2 (proj2 (C10_shortcut_for_index 26 _))) _); lia.
Defined.

(** ** Dictionaries and sorting *)

Lemma dict_get_set_eq {V : Type} (k : Z) (v : V) (d : dict V) :
  dict_get k (dict_set k v d) = Some v.
Proof.
  induction d as [|[k' v'] d IH]; cbn [dict_set dict_get].
  - by rewrite Z.eqb_refl.
  - destruct (Z.eqb_spec k k'); cbn [dict_get].
    + by rewrite Z.eqb_refl.
    + by destruct (Z.eqb_spec k k').
Qed.

Lemma dict_get_set_ne {V : Type} (k k' : Z) (v : V) (d : dict V) :
  k <> k' -> dict_get k' (dict_set k v d) = dict_get k' d.
Proof.
  intros Hne. induction d as [|[k0 v0] d IH]; cbn [dict_set dict_get].
  - by destruct (Z.eqb_spec k' k); [subst|].
  - destruct (Z.eqb_spec k k0); cbn [dict_get].
    + subst k0. by destruct (Z.eqb_spec k' k); [subst|].
    + by rewrite IH.
Qed.

Lemma dict_set_keys {V : Type} (k : Z) (v : V) (d : dict V) :
  dict_keys (dict_set k v d) =
  if bool_decide (k ∈ dict_keys d) then dict_keys d else dict_keys d ++ [k].
Proof.
  unfold dict_keys. induction d as [|[k' v'] d IH]; cbn [dict_set map fst].
  - by rewrite bool_decide_eq_false_2 by apply not_elem_of_nil.
  - destruct (Z.eqb_spec k k') as [->|Hne]; cbn [map fst].
    + by rewrite bool_decide_eq_true_2 by apply list_elem_of_here.
    + rewrite IH. case_bool_decide as Hin.
      * by rewrite bool_decide_eq_true_2 by (by apply list_elem_of_further).
      * rewrite bool_decide_eq_false_2; [done|].
        intros [?|?]%elem_of_cons; congruence.
Qed.

Lemma dict_set_keys_NoDup {V : Type} (k : Z) (v : V) (d : dict V) :
  NoDup (dict_keys d) -> NoDup (dict_keys (dict_set k v d)).
Proof.
  intros Hd. rewrite dict_set_keys. case_bool_decide as Hin; [done|].
  apply list.NoDup_app. split; [done|]. split.
  - intros x Hx Hk. apply list_elem_of_singleton in Hk. by subst.
  - apply NoDup_singleton.
Qed.

Lemma dict_get_Some_In {V : Type} (k : Z) (v : V) (d : dict V) :
  dict_get k d = Some v -> In (k, v) d.
Proof.
  induction d as [|[k' v'] d IH]; cbn [dict_get]; [done|].
  destruct (Z.eqb_spec k k') as [->|Hne].
  - intros [= ->]. by left.
  - intros H. right. by apply IH.
Qed.

Lemma In_dict_get {V : Type} (k : Z) (v : V) (d : dict V) :
  NoDup (dict_keys d) -> In (k, v) d -> dict_get k d = Some v.
Proof.
  unfold dict_keys. induction d as [|[k' v'] d IH]; cbn [dict_get map fst]; [done|].
  intros Hnd [Heq|Hin].
  - injection Heq as -> ->. by rewrite Z.eqb_refl.
  - apply list.NoDup_cons in Hnd as [Hk' Hnd].
    destruct (Z.eqb_spec k k') as [->|Hne]; [|by apply IH].
    destruct Hk'. apply list_elem_of_In. apply in_map_iff. by exists (k', v).
Qed.

Section SortFacts.
Context {A : Type} (lt : A -> A -> result bool).
Hypothesis lt_returns : forall x y, exists b, lt x y = Ok b.

Lemma sort_insert_Ok (x : A) (l : list A) :
  exists r, sort_insert lt x l = Ok r /\ Permutation (x :: l) r.
Proof.
  induction l as [|y l (r & Hr & Hperm)]; cbn [sort_insert]; [by eexists|].
  destruct (lt_returns y x) as [[] ->]; cbn [bind].
  - rewrite Hr. cbn [bind]. eexists. split; [done|].
    rewrite <- Hperm. apply perm_swap.
  - by eexists.
Qed.

Lemma list_sort_Ok (l : list A) :
  exists r, list_sort lt l = Ok r /\ Permutation l r.
Proof.
  induction l as [|x l (r & Hr & Hperm)]; cbn [list_sort]; [by eexists|].
  rewrite Hr. cbn [bind]. destruct (sort_insert_Ok x r) as (r' & Hr' & Hperm').
  exists r'. split; [done|]. by rewrite Hperm.
Qed.

End SortFacts.

(** ** [_projects_to_dict] *)

Lemma projects_fold_get_Some (ps : list Project.t) (d : dict Project.t)
    (i : Z) (p : Project.t) :
  dict_get i (fold_left (fun d q => dict_set (Project.id q) q d) ps d) = Some p ->
  (In p ps /\ Project.id p = i) \/ dict_get i d = Some p.
Proof.
  revert d. induction ps as [|q ps IH]; intros d; cbn [fold_left]; [auto|].
  intros H. destruct (IH _ H) as [[Hin Hid]|Hget].
  - left. split; [by right|done].
  - destruct (decide (Project.id q = i)) as [<-|Hne].
    + rewrite dict_get_set_eq in Hget. injection Hget as ->. left. split; [by left|done].
    + rewrite dict_get_set_ne in Hget by done. by right.
Qed.

Lemma projects_fold_get_other (ps : list Project.t) (d : dict Project.t) (i : Z) :
  i ∉ map Project.id ps ->
  dict_get i (fold_left (fun d q => dict_set (Project.id q) q d) ps d) = dict_get i d.
Proof.
  revert d. induction ps as [|q ps IH]; intros d; cbn [fold_left map]; [done|].
  intros [Hne Hnotin]%not_elem_of_cons.
  rewrite IH by done. by apply dict_get_set_ne.
Qed.

Lemma projects_fold_get_NoDup (ps : list Project.t) (d : dict Project.t)
    (p : Project.t) :
  NoDup (map Project.id ps) -> In p ps ->
  dict_get (Project.id p) (fold_left (fun d q => dict_set (Project.id q) q d) ps d)
  = Some p.
Proof.
  revert d. induction ps as [|q ps IH]; intros d; cbn [fold_left map]; [done|].
  intros [Hq Hnd]%list.NoDup_cons [->|Hin].
  - rewrite projects_fold_get_other by done. apply dict_get_set_eq.
  - by apply IH.
Qed.

Lemma projects_fold_keys_NoDup (ps : list Project.t) (d : dict Project.t) :
  NoDup (dict_keys d) ->
  NoDup (dict_keys (fold_left (fun d q => dict_set (Project.id q) q d) ps d)).
Proof.
  revert d. induction ps as [|q ps IH]; intros d Hd; cbn [fold_left]; [done|].
  by apply IH, dict_set_keys_NoDup.
Qed.

Lemma projects_to_dict_values (ps : list Project.t) (p : Project.t) :
  In p (dict_values (_projects_to_dict ps)) -> In p ps.
Proof.
  unfold dict_values. intros ([k p'] & <- & Hin)%in_map_iff.
  apply In_dict_get in Hin; [|apply projects_fold_keys_NoDup, NoDup_nil_2].
  by destruct (projects_fold_get_Some _ _ _ _ Hin) as [[? _]|?].
Qed.

Lemma projects_to_dict_get (ps : list Project.t) (p : Project.t) :
  NoDup (map Project.id ps) -> In p ps ->
  dict_get (Project.id p) (_projects_to_dict ps) = Some p
  /\ In p (dict_values (_projects_to_dict ps)).
Proof.
  intros Hnd Hin. pose proof (projects_fold_get_NoDup ps [] p Hnd Hin) as Hget.
  split; [exact Hget|]. apply dict_get_Some_In in Hget.
  unfold dict_values. apply in_map_iff. by exists (Project.id p, p).
Qed.

(** ** Fetching and [init] *)

Lemma project_lt_returns (p q : Project.t) : exists b, Project.__lt__ p q = Ok b.
Proof. rewrite project_lt_spec. by eexists. Qed.

(** What [_fetch_projects] returns for a truthy response: the projects built
    from the active, non-private entries, in some order. *)
Lemma fetch_projects_Ok (me : me_data) :
  exists projects,
    _fetch_projects (Some me) = Ok projects /\
    Permutation
      (map (project_of_raw
              (match md_clients me with
               | Some clients_data => clients_map_of clients_data
               | None => []
               end))
           (List.filter (fun p => rp_active p && negb (rp_is_private p))
                        (default [] (md_projects me))))
      projects.
Proof.
  unfold _fetch_projects. destruct (md_projects me) as [projects_data|].
  - apply list_sort_Ok, project_lt_returns.
  - by exists [].
Qed.

Lemma NoDup_map_filter {A : Type} (f : A -> Z) (P : A -> bool) (l : list A) :
  NoDup (map f l) -> NoDup (map f (List.filter P l)).
Proof.
  induction l as [|a l IH]; cbn [map List.filter]; [done|].
  intros [Ha Hnd]%list.NoDup_cons. destruct (P a); cbn [map]; [|by apply IH].
  apply list.NoDup_cons. split; [|by apply IH].
  intros Hin. apply Ha. apply list_elem_of_In in Hin.
  apply in_map_iff in Hin as (b & Hb & Hin). apply filter_In in Hin as [Hin _].
  apply list_elem_of_In, in_map_iff. by exists b.
Qed.

Lemma NoDup_map_inj {A : Type} (f : A -> Z) (l : list A) (a b : A) :
  NoDup (map f l) -> In a l -> In b l -> f a = f b -> a = b.
Proof.
  induction l as [|c l IH]; cbn [map]; [done|].
  intros [Hc Hnd]%list.NoDup_cons [->|Ha] [->|Hb] Heq; try done.
  - destruct Hc. rewrite Heq. apply list_elem_of_In, in_map_iff. by exists b.
  - destruct Hc. rewrite <- Heq. apply list_elem_of_In, in_map_iff. by exists a.
  - by apply IH.
Qed.

(** C8. For every response, [handle_init] stores a config without default
    project whose projects are all built from entries that are active and
    not private; with the remote ids distinct, each active and non-private
    entry is stored under its id and no inactive or private one is. *)
Theorem C8_handle_init (me : me_data) :
  let projects_data := default [] (md_projects me) in
  let clients_map :=
    match md_clients me with
    | Some clients_data => clients_map_of clients_data
    | None => []
    end in
  exists config,
    handle_init (Some me) = Ok config /\
    Config.default_project_id config = None /\
    (forall p, In p (dict_values (Config.projects config)) ->
       exists raw, In raw projects_data /\ rp_active raw = true
                   /\ rp_is_private raw = false /\ p = project_of_raw clients_map raw) /\
    (NoDup (map rp_id projects_data) ->
     forall raw, In raw projects_data ->
       if rp_active raw && negb (rp_is_private raw)
       then dict_get (rp_id raw) (Config.projects config)
            = Some (project_of_raw clients_map raw)
            /\ In (project_of_raw clients_map raw) (dict_values (Config.projects config))
       else dict_get (rp_id raw) (Config.projects config) = None).
Proof.
  intros projects_data clients_map.
  destruct (fetch_projects_Ok me) as (projects & Hfetch & Hperm).
  fold projects_data clients_map in Hperm.
  set (kept := List.filter _ projects_data) in Hperm.
  unfold handle_init. rewrite Hfetch. cbn [bind]. eexists. split; [done|].
  cbn [Config.default_project_id Config.projects]. split; [done|].
  assert (Hkept : forall p, In p projects ->
            exists raw, In raw projects_data /\ rp_active raw = true
                        /\ rp_is_private raw = false /\ p = project_of_raw clients_map raw).
  { intros p Hp. apply (Permutation_in _ (Permutation_sym Hperm)) in Hp.
    apply in_map_iff in Hp as (raw & <- & Hraw).
    apply filter_In in Hraw as [Hraw Hflags].
    apply andb_prop in Hflags as [Hact Hpriv]. apply negb_true_iff in Hpriv.
    by exists raw. }
  split.
  - intros p Hp. by apply Hkept, projects_to_dict_values.
  - intros Hnd raw Hraw.
    assert (Hids : NoDup (map Project.id projects)).
    { rewrite <- Hperm, map_map. cbn [project_of_raw Project.id].
      by apply NoDup_map_filter. }
    destruct (rp_active raw && negb (rp_is_private raw)) eqn:Hflags.
    + apply (projects_to_dict_get projects (project_of_raw clients_map raw) Hids).
      apply (Permutation_in _ Hperm), in_map, filter_In. by split.
    + destruct (dict_get _ _) as [p|] eqn:Hget; [|done].
      destruct (projects_fold_get_Some _ _ _ _ Hget) as [[Hin Hid]|?]; [|done].
      destruct (Hkept p Hin) as (raw' & Hraw' & Hact & Hpriv & ->).
      cbn [project_of_raw Project.id] in Hid.
      rewrite <- (NoDup_map_inj rp_id projects_data raw' raw Hnd Hraw' Hraw Hid) in Hflags.
      by rewrite Hact, Hpriv in Hflags.
Qed.

Lemma C8_handle_init_witness :
  NoDup (map rp_id (default [] (md_projects me_example))) /\
  exists config,
    handle_init (Some me_example) = Ok config /\
    Config.default_project_id config = None /\
    is_Some (dict_get 11 (Config.projects config)) /\
    dict_get 12 (Config.projects config) = None /\
    dict_get 13 (Config.projects config) = None.
Proof.
  assert (Hnd : NoDup (map rp_id (default [] (md_projects me_example)))).
  { cbn. repeat (apply NoDup_cons_2; [rewrite ?elem_of_cons, elem_of_nil; lia|]).
    apply NoDup_nil_2. }
  split; [exact Hnd|].
  destruct (C8_handle_init me_example) as (config & Hinit & Hdefault & _ & Hstored).
  exists config. split; [exact Hinit|]. split; [exact Hdefault|].
  split; [|split].
  - destruct (Hstored Hnd _ (or_introl eq_refl)) as [Hget _].
    eexists. exact Hget.
  - exact (Hstored Hnd _ (or_intror (or_introl eq_refl))).
  - exact (Hstored Hnd _ (or_intror (or_intror (or_introl eq_refl)))).
Defined.

Example handle_init_example :
  exists config,
    handle_init (Some me_example) = Ok config /\
    dict_keys (Config.projects config) = [11] /\
    Config.default_project_id config = None.
Proof. eexists. split; [reflexivity|]. split; reflexivity. Qed.

(** ** The alias prompt *)

Lemma is_alias_used_true (self : ProjectMenu.t) (j : nat) (other : Project.t)
    (alias : str) :
  ProjectMenu.projects self !! j = Some other -> Project.alias other = Some alias ->
  ProjectMenu._is_alias_used self alias = true.
Proof.
  intros Hj Halias. unfold ProjectMenu._is_alias_used. apply existsb_exists.
  exists other. split; [|by apply bool_decide_eq_true].
  apply list_elem_of_In. by eapply list_elem_of_lookup_2.
Qed.

(** C7. When the alias typed at the prompt (stripped, non-empty) is the alias
    of another project of the menu, the step leaves the menu state, hence
    every alias, unchanged; it reports the conflict (the error message, unless
    the selected project itself already carries that alias, in which case the
    message is "Alias not changed."); and the loop goes on with the next
    input from the same state, without raising. *)
Theorem C7_alias_conflict `{UnicodeDB}
    (self : ProjectMenu.t) (i j : nat) (selected other : Project.t)
    (user : interaction) (rest : list interaction) :
  ProjectMenu.projects self !! i = Some selected ->
  ProjectMenu.projects self !! j = Some other ->
  i <> j ->
  picked_project user = Some i ->
  picked_action user = Some 0%nat ->
  str_strip (typed user) <> [] ->
  Project.alias other = Some (str_strip (typed user)) ->
  exists out,
    ProjectMenu._edit_project_menu_loop self i user = Ok (self, out) /\
    (Project.alias selected <> Some (str_strip (typed user)) ->
     out = [Error_alias_in_use (str_strip (typed user))]) /\
    (Project.alias selected = Some (str_strip (typed user)) ->
     out = [Alias_not_changed]) /\
    ProjectMenu.select_project_menu_loop self (user :: rest) =
      (let* '(s, out') := ProjectMenu.select_project_menu_loop self rest in
       Ok (s, out ++ out')) /\
    ProjectMenu.select_project_menu_loop self [user]
    = Ok (ProjectMenu.Awaiting_input self, out).
Proof.
  intros Hi Hj Hne Hpick Hact Hnonempty Hother.
  set (new_alias := str_strip (typed user)) in *.
  assert (Hstep : exists out,
    ProjectMenu._edit_project_menu_loop self i user = Ok (self, out) /\
    (Project.alias selected <> Some new_alias -> out = [Error_alias_in_use new_alias]) /\
    (Project.alias selected = Some new_alias -> out = [Alias_not_changed])).
  { unfold ProjectMenu._edit_project_menu_loop, ProjectMenu._show_edit_project_menu.
    rewrite Hi, Hact. cbn [ProjectMenu.project_edit_items app lookup list_lookup bind].
    unfold ProjectMenu._show_change_alias_menu. fold new_alias.
    destruct new_alias as [|c new_alias'] eqn:Hnew; [done|]. cbn [truthy_str negb orb].
    rewrite (is_alias_used_true self j other _ Hj Hother).
    case_bool_decide as Hsel; eexists; (split; [reflexivity|]); split; congruence. }
  destruct Hstep as (out & Hstep & Herr & Hsame). exists out.
  assert (Hsel : ProjectMenu._show_select_project_menu self (picked_project user)
                 = ProjectMenu.sel_index i).
  { unfold ProjectMenu._show_select_project_menu. rewrite Hpick.
    apply lookup_lt_Some in Hi.
    destruct (Nat.eqb_spec i (length (ProjectMenu.projects self) + 2 - 1));
      [lia|done]. }
  split; [exact Hstep|]. split; [exact Herr|]. split; [exact Hsame|]. split.
  - cbn [ProjectMenu.select_project_menu_loop]. rewrite Hsel, Hstep. reflexivity.
  - cbn [ProjectMenu.select_project_menu_loop]. rewrite Hsel, Hstep.
    cbn [bind]. by rewrite app_nil_r.
Qed.

Lemma C7_alias_conflict_witness :
  ProjectMenu.select_project_menu_loop (H := ascii_db) menu_example [user_types_web]
  = Ok (ProjectMenu.Awaiting_input menu_example,
        [Error_alias_in_use (str_of_string "web")]).
Proof.
  destruct (C7_alias_conflict (H := ascii_db) menu_example 1 0 p_zeta p_web
              user_types_web [] eq_refl eq_refl ltac:(discriminate) eq_refl eq_refl
              ltac:(discriminate) eq_refl)
    as (out & _ & Herr & _ & _ & Hloop).
  rewrite Hloop. f_equal. f_equal. apply Herr. discriminate.
Defined.

(** ** Merging on refresh *)

(** The alias part of the merge: a fetched project takes the alias of the
    stored project with its id, all its other fields are the fetched ones;
    without a stored counterpart it is unchanged. *)
Lemma merge_alias_spec (old_config : Config.t) (new_project : Project.t) :
  let merged := merge_alias old_config new_project in
  Project.id merged = Project.id new_project /\
  Project.name merged = Project.name new_project /\
  Project.workspace_id merged = Project.workspace_id new_project /\
  Project.client merged = Project.client new_project /\
  Project.billable merged = Project.billable new_project /\
  Project.alias merged =
    match dict_get (Project.id new_project) (Config.projects old_config) with
    | Some old_project => Project.alias old_project
    | None => Project.alias new_project
    end.
Proof. unfold merge_alias. by destruct (dict_get _ _). Qed.

Lemma merge_alias_id (old_config : Config.t) (new_projects : list Project.t) :
  map Project.id (map (merge_alias old_config) new_projects)
  = map Project.id new_projects.
Proof.
  rewrite map_map. apply map_ext. intros p. apply merge_alias_spec.
Qed.

(** The merge as a whole, for a stored default id other than 0. *)
Lemma merged_menu_spec (old_config : Config.t) (new_projects : list Project.t) :
  ProjectMenu.projects (merged_menu old_config new_projects)
  = map (merge_alias old_config) new_projects /\
  (Config.default_project_id old_config = None ->
   ProjectMenu.default_project_id (merged_menu old_config new_projects) = None) /\
  (forall d, Config.default_project_id old_config = Some d -> d <> 0 ->
     ProjectMenu.default_project_id (merged_menu old_config new_projects)
     = if bool_decide (d ∈ map Project.id new_projects) then Some d else None).
Proof.
  unfold merged_menu, default_project_still_exists.
  cbn [ProjectMenu.projects ProjectMenu.default_project_id].
  split; [done|]. split.
  - by intros ->.
  - intros d -> Hd. cbn [truthy_opt]. unfold truthy_int.
    destruct (Z.eqb_spec d 0) as [?|_]; [done|]. cbn [negb andb].
    rewrite <- (merge_alias_id old_config new_projects).
    set (ps := map (merge_alias old_config) new_projects).
    destruct (existsb _ ps) eqn:Hex.
    + apply existsb_exists in Hex as (p & Hp & Hid).
      apply bool_decide_eq_true in Hid. injection Hid as <-.
      rewrite bool_decide_eq_true_2; [done|].
      apply list_elem_of_In, in_map_iff. by exists p.
    + rewrite bool_decide_eq_false_2; [done|].
      intros (p & <- & Hp)%list_elem_of_In%in_map_iff.
      assert (existsb (fun p0 => bool_decide (Some (Project.id p0) = Some (Project.id p)))
                ps = true); [|congruence].
      apply existsb_exists. exists p. split; [done|]. by apply bool_decide_eq_true.
Qed.

(** The merge example of the specification. *)
Example merge_refresh_example :
  merged_menu config_five [mk_project 5 "New name" None None]
  = {| ProjectMenu.projects := [mk_project 5 "New name" None (Some "proj5"%string)];
       ProjectMenu.default_project_id := Some 5 |}
  /\ ProjectMenu.default_project_id (merged_menu config_five [p_acme]) = None.
Proof. split; reflexivity. Qed.

(** C4, the failing input.  Project 0 is the stored default and is fetched
    again, yet the merged default is unset: the test
    [old_config.default_project_id and any(...)] takes the id 0 for "no
    default".  The alias is merged as claimed. *)
Lemma C4_default_zero_dropped :
  Config.default_project_id config_default_zero = Some 0 /\
  (exists projects, _fetch_projects (Some me_zero) = Ok projects
                    /\ In 0 (map Project.id projects)) /\
  handle_projects (H := ascii_db) (Some config_default_zero) (Some me_zero) []
  = Ok (ProjectMenu.Awaiting_input
          {| ProjectMenu.projects := [p_zero_stored];
             ProjectMenu.default_project_id := None |}, []).
Proof.
  split; [reflexivity|]. split; [|reflexivity].
  eexists. split; [reflexivity|]. by left.
Qed.

(** ** Project resolution *)

(** For a non-empty selector [get_project] returns a stored project that
    matches by alias or by lower-cased name if there is one (the first in
    the order of the dictionary), and [None] if there is none. *)
Lemma get_project_selector `{UnicodeDB} (self : Config.t) (selector : str) :
  selector <> [] ->
  match Config.get_project self (Some selector) with
  | Some p =>
      In p (dict_values (Config.projects self)) /\
      (Project.alias p = Some selector
       \/ str_lower (Project.name p) = str_lower selector)
  | None =>
      forall p, In p (dict_values (Config.projects self)) ->
        Project.alias p <> Some selector
        /\ str_lower (Project.name p) <> str_lower selector
  end.
Proof.
  intros Hsel. unfold Config.get_project. cbn [truthy_opt default id].
  destruct selector as [|c selector]; [done|]. cbn [truthy_str negb].
  set (sel := c :: selector).
  assert (Hmatch : forall p,
            Config.alias_matches p sel || Config.name_matches p sel = true <->
            (Project.alias p = Some sel \/ str_lower (Project.name p) = str_lower sel)).
  { intros p. rewrite orb_true_iff. unfold Config.alias_matches, Config.name_matches.
    rewrite str_eqb_eq, andb_true_iff, bool_decide_eq_true.
    split; (intros [Ha|Hn]; [left|by right]); [by destruct Ha|].
    split; [|done]. by rewrite Ha. }
  destruct (find _ _) as [p|] eqn:Hfind.
  - apply find_some in Hfind as [Hin Hp]. split; [done|]. by apply Hmatch.
  - intros p Hin. pose proof (find_none _ _ Hfind p Hin) as Hp.
    apply not_true_iff_false in Hp. rewrite Hmatch in Hp. tauto.
Qed.

(** For an empty selector the result is the stored default project when the
    default id is set and is not 0, and [None] when no default is set. *)
Lemma get_project_empty `{UnicodeDB} (self : Config.t) (selector : option str) :
  selector = None \/ selector = Some [] ->
  (Config.default_project_id self = None -> Config.get_project self selector = None) /\
  (forall d, Config.default_project_id self = Some d -> d <> 0 ->
     Config.get_project self selector = dict_get d (Config.projects self)).
Proof.
  intros Hempty. unfold Config.get_project, Config._get_default_project.
  assert (Hfalsy : truthy_opt truthy_str selector = false) by by destruct Hempty as [->| ->].
  rewrite Hfalsy. cbn [negb]. split.
  - by intros ->.
  - intros d -> Hd. unfold truthy_int. by destruct (Z.eqb_spec d 0).
Qed.

(** C6, the failing input.  Project 0 is stored and is the configured
    default, yet the empty selector resolves to no project: the test
    [if self.default_project_id] takes the id 0 for "no default". *)
Lemma C6_default_zero_not_returned :
  Config.default_project_id config_default_zero = Some 0 /\
  dict_get 0 (Config.projects config_default_zero) = Some p_zero_stored /\
  Config.get_project (H := ascii_db) config_default_zero (Some []) = None /\
  Config.get_project (H := ascii_db) config_default_zero None = None.
Proof. repeat split; reflexivity. Qed.

(** ** [handle_projects] up to the first prompt *)

Lemma fetch_projects_alias (response : option me_data) (projects : list Project.t) :
  _fetch_projects response = Ok projects ->
  forall p, In p projects -> Project.alias p = None.
Proof.
  destruct response as [me|]; [|done]. intros Hfetch p Hp.
  destruct (fetch_projects_Ok me) as (projects' & Hfetch' & Hperm).
  rewrite Hfetch in Hfetch'. injection Hfetch' as <-.
  apply (Permutation_in _ (Permutation_sym Hperm)) in Hp.
  by apply in_map_iff in Hp as (raw & <- & _).
Qed.

(** The menu opens on the fetched projects, each with the alias of the stored
    project of the same id and otherwise without alias. *)
Lemma handle_projects_opens `{UnicodeDB}
    (old_config : Config.t) (response : option me_data) (new_projects : list Project.t) :
  _fetch_projects response = Ok new_projects ->
  handle_projects (Some old_config) response []
  = Ok (ProjectMenu.Awaiting_input (merged_menu old_config new_projects), []) /\
  forall p, In p new_projects ->
    Project.alias (merge_alias old_config p) =
    match dict_get (Project.id p) (Config.projects old_config) with
    | Some old_project => Project.alias old_project
    | None => None
    end.
Proof.
  intros Hfetch. split.
  - unfold handle_projects. cbn [_load_config bind]. by rewrite Hfetch.
  - intros p Hp. destruct (merge_alias_spec old_config p) as (_ & _ & _ & _ & _ & ->).
    by rewrite (fetch_projects_alias _ _ Hfetch p Hp).
Qed.

(** * Further properties of the script *)

(** ** Rounding: fixed points, order, distance *)

Lemma on_boundary_fields (r : datetime) :
  on_boundary r = true -> minute r mod 15 = 0 /\ second r = 0 /\ microsecond r = 0.
Proof.
  unfold on_boundary. intros H. apply andb_prop in H as [H Hus].
  apply andb_prop in H as [Hm Hs]. split_and!; lia.
Qed.

Lemma round_time_down_fixpoint (r : datetime) :
  valid_datetime r -> on_boundary r = true -> _round_time_down r = Ok r.
Proof.
  intros Hv Hb. rewrite round_time_down_Ok by done.
  destruct (on_boundary_fields r Hb) as (Hm & Hs & Hus).
  destruct r as [o h m s us tz]. cbn [ordinal hour minute second microsecond utcoffset] in *.
  subst s us. do 2 f_equal. div_lia.
Qed.

Lemma boundary_naive_multiple (r : datetime) :
  valid_datetime r -> on_boundary r = true ->
  naive_micros r = naive_micros r / QUARTER * QUARTER.
Proof.
  intros Hv Hb. pose proof (round_time_down_fixpoint r Hv Hb) as Hr.
  by destruct (round_time_down_facts r r Hv Hr) as (_ & _ & _ & Hn & _).
Qed.

Lemma dt_sub_same_offset (a b : datetime) :
  utcoffset a = utcoffset b -> dt_sub a b = Ok (naive_micros a - naive_micros b).
Proof.
  intros Htz. unfold dt_sub. rewrite Htz. destruct (utcoffset b); f_equal; lia.
Qed.

(** Rounding twice is rounding once: the result of either function is a
    fixed point of both; and the two results for one argument are equal when
    the argument is on a boundary and 15 minutes apart otherwise. *)
Theorem rounding_fixed_points (t : datetime) :
  valid_datetime t ->
  exists down,
    _round_time_down t = Ok down /\
    _round_time_down down = Ok down /\ _round_time_up down = Ok down /\
    forall up, _round_time_up t = Ok up ->
      _round_time_down up = Ok up /\ _round_time_up up = Ok up /\
      dt_sub up down = Ok (if on_boundary t then 0 else timedelta_minutes 15).
Proof.
  intros Hv. destruct (_round_time_down t) as [down|] eqn:Hd;
    [|by rewrite round_time_down_Ok in Hd].
  destruct (round_time_down_facts t down Hv Hd) as (Hvd & Htzd & Hbd & _ & Hlo & Hhi).
  exists down. split; [done|]. split; [by apply round_time_down_fixpoint|].
  split; [unfold _round_time_up; by rewrite Hbd|].
  intros up Hup.
  destruct (round_time_up_facts t Hv) as (Hret & _ & _).
  destruct (Hret up Hup) as (Hvu & Hbu & Htzu & _).
  split; [by apply round_time_down_fixpoint|].
  split; [unfold _round_time_up; by rewrite Hbu|].
  rewrite dt_sub_same_offset by congruence. f_equal.
  unfold _round_time_up in Hup. destruct (on_boundary t) eqn:Hb.
  - injection Hup as <-. rewrite round_time_down_fixpoint in Hd by done.
    injection Hd as <-. lia.
  - rewrite Hd in Hup. cbn [bind] in Hup.
    destruct (dt_add_Ok _ _ _ Hup Hvd) as (_ & _ & Hn). lia.
Qed.

Lemma rounding_fixed_points_witness :
  valid_datetime utc_10_07_00 /\
  exists down, _round_time_down utc_10_07_00 = Ok down /\ _round_time_down down = Ok down.
Proof.
  assert (Hv : valid_datetime utc_10_07_00) by solve_valid.
  split; [exact Hv|].
  destruct (rounding_fixed_points utc_10_07_00 Hv) as (down & Hd & Hdd & _).
  exists down. split; [exact Hd | exact Hdd].
Defined.

(** Both functions are monotone on timestamps of one offset: a later
    argument never gets an earlier result. *)
Theorem rounding_monotone (a b : datetime) :
  valid_datetime a -> valid_datetime b -> utcoffset a = utcoffset b ->
  dt_le a b = Ok true ->
  (forall da db, _round_time_down a = Ok da -> _round_time_down b = Ok db ->
     dt_le da db = Ok true) /\
  (forall ua ub, _round_time_up a = Ok ua -> _round_time_up b = Ok ub ->
     dt_le ua ub = Ok true).
Proof.
  intros Ha Hb Htz Hle. rewrite dt_le_instant in Hle by done.
  injection Hle as Hle. apply Z.leb_le in Hle. unfold instant in Hle.
  rewrite Htz in Hle. split.
  - intros da db Hda Hdb.
    destruct (round_time_down_facts a da Ha Hda) as (Hvda & Htza & _ & Hna & _).
    destruct (round_time_down_facts b db Hb Hdb) as (Hvdb & Htzb & _ & Hnb & _).
    rewrite dt_le_instant by (done || congruence). f_equal. apply Z.leb_le.
    unfold instant. rewrite Htza, Htzb, Htz, Hna, Hnb.
    assert (naive_micros a / QUARTER <= naive_micros b / QUARTER)
      by (apply Z.div_le_mono; [by vm_compute|lia]).
    change QUARTER with 900000000 in *. lia.
  - intros ua ub Hua Hub.
    destruct (round_time_up_facts a Ha) as (Hra & _ & _).
    destruct (round_time_up_facts b Hb) as (Hrb & _ & _).
    destruct (Hra ua Hua) as (Hvua & Hbua & Htzua & Hina).
    destruct (Hrb ub Hub) as (Hvub & Hbub & Htzub & Hinb).
    rewrite dt_le_instant by (done || congruence). f_equal. apply Z.leb_le.
    pose proof (boundary_naive_multiple ua Hvua Hbua) as Hma.
    pose proof (boundary_naive_multiple ub Hvub Hbub) as Hmb.
    revert Hina Hinb. unfold instant. rewrite Htzua, Htzub, Htz.
    change QUARTER with 900000000 in *. intros Hina Hinb. lia.
Qed.

Lemma rounding_monotone_witness :
  valid_datetime utc_10_07_00 /\ valid_datetime utc_10_22_00 /\
  dt_le utc_10_07_00 utc_10_22_00 = Ok true /\
  dt_le utc_10_00_00 utc_10_15_00 = Ok true.
Proof.
  assert (Ha : valid_datetime utc_10_07_00) by solve_valid.
  assert (Hb : valid_datetime utc_10_22_00) by solve_valid.
  split; [exact Ha|]. split; [exact Hb|]. split; [reflexivity|].
  exact (proj1 (rounding_monotone utc_10_07_00 utc_10_22_00 Ha Hb eq_refl eq_refl)
           utc_10_00_00 utc_10_15_00 eq_refl eq_refl).
Defined.

(** ** [handle_end] and [handle_start]: what is sent, and when nothing is *)

(** The stop time is on a block boundary, carries the offset of the clock
    reading and lies less than 15 minutes from it, on either side. *)
Theorem stop_time_near_now (start now stop : datetime) :
  valid_datetime start -> valid_datetime now ->
  final_end_time start now = Ok stop ->
  valid_datetime stop /\ on_boundary stop = true /\ utcoffset stop = utcoffset now /\
  - timedelta_minutes 15 < instant stop - instant now < timedelta_minutes 15.
Proof.
  intros Hs Hn Hstop. rewrite final_end_time_unfold in Hstop by done.
  fold QUARTER. destruct (same_block start now).
  - destruct (round_time_up_facts now Hn) as (Hret & _ & _).
    destruct (Hret stop Hstop) as (Hv & Hb & Htz & Hin).
    split_and!; try done; change QUARTER with 900000000 in *; lia.
  - destruct (round_time_down_facts now stop Hn Hstop) as (Hv & Htz & Hb & _ & Hlo & Hhi).
    unfold instant. rewrite Htz.
    split_and!; try done; change QUARTER with 900000000 in *; lia.
Qed.

Lemma stop_time_near_now_witness :
  valid_datetime utc_10_07_00 /\ valid_datetime utc_10_22_00 /\
  final_end_time utc_10_07_00 utc_10_22_00 = Ok utc_10_15_00 /\
  - timedelta_minutes 15 < instant utc_10_15_00 - instant utc_10_22_00
    < timedelta_minutes 15.
Proof.
  assert (Hs : valid_datetime utc_10_07_00) by solve_valid.
  assert (Hn : valid_datetime utc_10_22_00) by solve_valid.
  split; [exact Hs|]. split; [exact Hn|]. split; [reflexivity|].
  exact (proj2 (proj2 (proj2
           (stop_time_near_now utc_10_07_00 utc_10_22_00 utc_10_15_00 Hs Hn eq_refl)))).
Defined.

(** An entry that [handle_start] began at [t0] (its start is the rounded
    [t0]) and that is ended at a later [now] of the same offset gets a
    duration that is a whole number of quarters of an hour, never negative,
    and zero only when [now] is [t0] itself and lies on a boundary. *)
Theorem start_then_end_duration (t0 now start stop : datetime) :
  valid_datetime t0 -> valid_datetime now -> utcoffset t0 = utcoffset now ->
  dt_le t0 now = Ok true ->
  _round_time_down t0 = Ok start -> final_end_time start now = Ok stop ->
  exists k, 0 <= k /\ dt_sub stop start = Ok (k * timedelta_minutes 15) /\
            (k = 0 <-> on_boundary now = true /\ instant now = instant t0).
Proof.
  intros Ht0 Hn Htz Hle Hstart Hstop.
  rewrite dt_le_instant in Hle by done. injection Hle as Hle. apply Z.leb_le in Hle.
  destruct (round_time_down_facts t0 start Ht0 Hstart) as (Hvs & Htzs & Hbs & Hns & Hlos & His).
  pose proof (round_time_down_Ok now Hn) as Hdown.
  destruct (round_time_down_facts now _ Hn Hdown) as (Hvd & Htzd & Hbd & Hnd & Hlod & Hid).
  set (down := mk_datetime _ _ _ _ _ _) in *.
  assert (Hblock : same_block start now = (instant start =? instant down)).
  { unfold same_block. rewrite round_time_down_fixpoint, Hdown by done.
    apply dt_eqb_instant; [done..|]. rewrite Htzs, Htzd, Htz. done. }
  rewrite final_end_time_unfold, Hblock in Hstop by done.
  unfold instant in Hle, Hblock, Hstop |- *. rewrite Htzs, Htzd, Htz in Hstop.
  rewrite Htz in Hle. fold QUARTER.
  destruct (Z.eqb_spec (naive_micros start - default 0 (utcoffset now))
                       (naive_micros down - default 0 (utcoffset now))) as [Heq|Hneq].
  - destruct (round_time_up_facts now Hn) as (Hret & _ & _).
    destruct (Hret stop Hstop) as (Hv & Hb & Htzstop & _).
    rewrite dt_sub_same_offset by congruence.
    unfold _round_time_up in Hstop. destruct (on_boundary now) eqn:Hbn.
    + injection Hstop as <-. exists 0. split; [lia|].
      pose proof (boundary_naive_multiple now Hn Hbn) as Hmult.
      split; [f_equal; lia|]. split; [|done]. intros _. split; [done|].
      rewrite Htz. lia.
    + rewrite Hdown in Hstop. cbn [bind] in Hstop.
      destruct (dt_add_Ok _ _ _ Hstop Hvd) as (_ & _ & Hadd). fold QUARTER in Hadd.
      exists 1. split; [lia|]. split; [f_equal; lia|].
      split; [lia|]. by intros [? _].
  - rewrite Hdown in Hstop. injection Hstop as <-.
    rewrite dt_sub_same_offset by congruence.
    exists (naive_micros now / QUARTER - naive_micros t0 / QUARTER).
    assert (naive_micros t0 / QUARTER <= naive_micros now / QUARTER)
      by (apply Z.div_le_mono; [by vm_compute|lia]).
    assert (Hk : naive_micros t0 / QUARTER <> naive_micros now / QUARTER).
    { intros Hk. apply Hneq. rewrite Hns, Hnd, Hk. done. }
    split; [lia|]. split; [f_equal; rewrite Hns, Hnd; lia|].
    split; [lia|]. intros [_ Hsame]. exfalso. apply Hk.
    rewrite Htz in Hsame. f_equal. lia.
Qed.

Lemma start_then_end_duration_witness :
  valid_datetime utc_10_07_00 /\ valid_datetime utc_10_22_00 /\
  dt_le utc_10_07_00 utc_10_22_00 = Ok true /\
  exists k, 0 <= k /\ dt_sub utc_10_15_00 utc_10_00_00 = Ok (k * timedelta_minutes 15).
Proof.
  assert (Ht0 : valid_datetime utc_10_07_00) by solve_valid.
  assert (Hn : valid_datetime utc_10_22_00) by solve_valid.
  split; [exact Ht0|]. split; [exact Hn|]. split; [reflexivity|].
  destruct (start_then_end_duration utc_10_07_00 utc_10_22_00 utc_10_00_00 utc_10_15_00
              Ht0 Hn eq_refl eq_refl eq_refl eq_refl) as (k & Hk & Hsub & _).
  exists k. split; [exact Hk | exact Hsub].
Defined.

Lemma final_end_time_raises (start now : datetime) (e : exn) :
  final_end_time start now = Raise e -> e = ValueError \/ e = OverflowError.
Proof.
  unfold final_end_time, _round_time_up, _round_time_down, dt_replace, dt_add.
  repeat (case_match; cbn [bind]); intros [= <-]; auto.
Qed.

(** [handle_end] ends in [sys.exit(1)] or in one PATCH request, never in
    another exception.  It exits when there is no stored configuration or no
    running entry, and otherwise only when rounding up leaves the [datetime]
    range; the request goes to the workspace and id of the running entry and
    carries the formatted stop time. *)
Theorem handle_end_outcome
    (stored : option Config.t) (entry : option time_entry) (now : datetime) :
  valid_datetime now ->
  (forall e, entry = Some e -> valid_datetime (te_start e)) ->
  (forall e, handle_end stored entry now = Raise e -> e = SystemExit 1) /\
  (stored = None \/ entry = None -> handle_end stored entry now = Raise (SystemExit 1)) /\
  (forall config e, stored = Some config -> entry = Some e ->
     on_boundary now = true \/ before_last_quarter now ->
     exists final,
       final_end_time (te_start e) now = Ok final /\
       handle_end stored entry now
       = Ok (PATCH_stop (te_workspace_id e) (te_id e) (_format_iso final))) /\
  (forall req, handle_end stored entry now = Ok req ->
     exists e final,
       entry = Some e /\ final_end_time (te_start e) now = Ok final /\
       req = PATCH_stop (te_workspace_id e) (te_id e) (_format_iso final)).
Proof.
  intros Hn Hentry. unfold handle_end. split_and!.
  - intros e. destruct stored; [|by intros [= <-]]. cbn [_load_config bind].
    destruct entry as [en|]; [|by intros [= <-]].
    destruct (final_end_time _ _) as [final|e'] eqn:Hfinal; [done|].
    destruct (final_end_time_raises _ _ _ Hfinal) as [-> | ->];
      cbn [bind except_Exception_exit]; by intros [= <-].
  - intros [-> | ->]; [done|]. by destruct stored.
  - intros config e -> -> Hcase. cbn [_load_config bind].
    assert (Hex : exists final, final_end_time (te_start e) now = Ok final).
    { rewrite final_end_time_unfold by auto. destruct (same_block _ _).
      - destruct (round_time_up_facts now Hn) as (_ & Hex & _). by apply Hex.
      - rewrite round_time_down_Ok by done. by eexists. }
    destruct Hex as (final & Hfinal). exists final. by rewrite Hfinal.
  - intros req. destruct stored; [|done]. cbn [_load_config bind].
    destruct entry as [e|]; [|done].
    destruct (final_end_time _ _) as [final|e'] eqn:Hfinal.
    + cbn [bind except_Exception_exit]. intros [= <-]. by exists e, final.
    + destruct (final_end_time_raises _ _ _ Hfinal) as [-> | ->]; done.
Qed.

Lemma handle_end_outcome_witness :
  valid_datetime utc_10_12_00 /\
  handle_end (Some config_five) (Some (mk_time_entry 42 1 utc_10_07_00)) utc_10_12_00
  = Ok (PATCH_stop 1 42 (str_of_string "2024-01-01T10:15:00+00:00")).
Proof.
  assert (Hn : valid_datetime utc_10_12_00) by solve_valid.
  split; [exact Hn|].
  destruct (handle_end_outcome (Some config_five)
              (Some (mk_time_entry 42 1 utc_10_07_00)) utc_10_12_00 Hn)
    as (_ & _ & Hsend & _).
  { intros e [= <-]. solve_valid. }
  destruct (Hsend config_five _ eq_refl eq_refl) as (final & Hfinal & Hreq).
  { right. left. reflexivity. }
  rewrite Hreq. injection Hfinal as <-. reflexivity.
Defined.

(** [handle_start] ends in [sys.exit(1)] or in one POST request.  It exits
    without sending when there is no stored configuration, when an entry is
    already running (whatever the project argument), and when the selector
    resolves to no project; otherwise the request names the resolved project
    and its workspace, starts at the rounded clock reading, and is billable
    only if both the caller and the project say so. *)
Theorem handle_start_outcome `{UnicodeDB}
    (stored : option Config.t) (entry : option time_entry)
    (description : str) (project : option str) (billable : bool) (now : datetime) :
  valid_datetime now ->
  (forall e, handle_start stored entry description project billable now = Raise e ->
     e = SystemExit 1) /\
  (stored = None \/ entry <> None
   \/ (exists config, stored = Some config /\ Config.get_project config project = None) ->
   handle_start stored entry description project billable now = Raise (SystemExit 1)) /\
  (forall config p, stored = Some config -> entry = None ->
     Config.get_project config project = Some p ->
     exists start,
       _round_time_down now = Ok start /\ on_boundary start = true /\
       handle_start stored entry description project billable now
       = Ok (POST_time_entries (Project.workspace_id p) description (Project.id p)
               (_format_iso start) (billable && Project.billable p))).
Proof.
  intros Hn. pose proof (round_time_down_Ok now Hn) as Hdown.
  destruct (round_time_down_facts now _ Hn Hdown) as (_ & _ & Hb & _).
  unfold handle_start. split_and!.
  - intros e. destruct stored as [config|]; [|by intros [= <-]].
    cbn [_load_config bind]. destruct entry; [by intros [= <-]|].
    destruct (Config.get_project config project); [|by intros [= <-]].
    rewrite Hdown. cbn [bind]. intros Heq. discriminate Heq.
  - intros [-> | [Hentry | (config & -> & Hnone)]]; [done| |].
    + destruct stored; [|done]. cbn [_load_config bind]. by destruct entry.
    + cbn [_load_config bind]. destruct entry; [done|]. by rewrite Hnone.
  - intros config p -> -> Hp. cbn [_load_config bind]. rewrite Hp, Hdown.
    eexists. by split_and!.
Qed.

Lemma handle_start_outcome_witness :
  valid_datetime utc_10_07_00 /\
  handle_start (H := ascii_db) (Some config_five) None (str_of_string "work")
    (Some (str_of_string "PROJ5")) true utc_10_07_00
  = Raise (SystemExit 1).
Proof.
  assert (Hn : valid_datetime utc_10_07_00) by solve_valid.
  split; [exact Hn|].
  apply (handle_start_outcome (H := ascii_db) (Some config_five) None
           (str_of_string "work") (Some (str_of_string "PROJ5")) true utc_10_07_00 Hn).
  right. right. exists config_five. split; reflexivity.
Defined.

(** ** [_fetch_projects]: order of the result, client names *)

Lemma spec_project_lt_asym (p q : Project.t) :
  spec_project_lt p q = true -> spec_project_lt q p = false.
Proof.
  destruct spec_key_strict_total as [Hirr Htrans _].
  rewrite !spec_project_lt_key. intros Hpq.
  destruct (lex_ltb _ _ (spec_key q) (spec_key p)) eqn:Hqp; [|done].
  by rewrite <- (Hirr (spec_key p)), (Htrans _ _ _ Hpq Hqp).
Qed.

Lemma spec_project_lt_neg_trans (p q r : Project.t) :
  spec_project_lt p q = false -> spec_project_lt q r = false ->
  spec_project_lt p r = false.
Proof.
  destruct spec_key_strict_total as [Hirr Htrans Htotal].
  rewrite !spec_project_lt_key. intros Hpq Hqr.
  destruct (lex_ltb _ _ (spec_key p) (spec_key r)) eqn:Hpr; [|done].
  destruct (lex_ltb (lex_ltb Z.ltb str_ltb) str_ltb (spec_key q) (spec_key p)) eqn:Hqp.
  - by rewrite (Htrans _ _ _ Hqp Hpr) in Hqr.
  - rewrite (Htotal _ _ Hpq Hqp) in Hpr. by rewrite Hpr in Hqr.
Qed.

Lemma sort_insert_ordered (x : Project.t) (l r : list Project.t) :
  ordered l -> sort_insert Project.__lt__ x l = Ok r -> ordered r.
Proof.
  revert r. induction l as [|y l IH]; intros r Hl; cbn [sort_insert].
  - intros [= <-]. cbn. auto.
  - rewrite project_lt_spec. cbn [bind]. destruct Hl as [Hy Hl].
    destruct (spec_project_lt y x) eqn:Hyx.
    + destruct (sort_insert Project.__lt__ x l) as [r'|] eqn:Hr'; [|done].
      cbn [bind]. intros [= <-]. split; [|by apply IH].
      destruct (sort_insert_Ok Project.__lt__ project_lt_returns x l)
        as (r'' & Hr'' & Hperm).
      rewrite Hr' in Hr''. injection Hr'' as <-. rewrite <- Hperm.
      apply Forall_cons; [|done].
      rewrite project_lt_spec. f_equal. by apply spec_project_lt_asym.
    + intros [= <-]. split; [|done].
      apply Forall_cons; [by rewrite project_lt_spec, Hyx|].
      eapply Forall_impl; [|exact Hy]. intros q. cbn beta. rewrite !project_lt_spec.
      intros [= Hqy]. f_equal. by eapply spec_project_lt_neg_trans.
Qed.

Lemma list_sort_ordered (l r : list Project.t) :
  list_sort Project.__lt__ l = Ok r -> ordered r.
Proof.
  revert r. induction l as [|x l IH]; intros r; cbn [list_sort].
  - by intros [= <-].
  - destruct (list_sort Project.__lt__ l) as [r'|]; [|done]. cbn [bind].
    apply sort_insert_ordered. by apply IH.
Qed.

Lemma ordered_lookup (l : list Project.t) (i j : nat) (p q : Project.t) :
  ordered l -> (i < j)%nat -> l !! i = Some p -> l !! j = Some q ->
  Project.__lt__ q p = Ok false.
Proof.
  revert i j. induction l as [|x l IH]; intros i j Hl Hij Hi Hj; [done|].
  destruct Hl as [Hx Hl]. destruct j as [|j]; [lia|]. cbn in Hj.
  destruct i as [|i].
  - injection Hi as <-. rewrite Forall_forall in Hx. apply Hx, list_elem_of_In.
    by eapply list_elem_of_lookup_2.
  - cbn in Hi. apply (IH i j); (done || lia).
Qed.

(** The list that [_fetch_projects] returns is sorted: no project is smaller
    than one listed before it.  So the projects without client come last. *)
Theorem fetch_projects_sorted
    (response : option me_data) (projects : list Project.t)
    (i j : nat) (p q : Project.t) :
  _fetch_projects response = Ok projects ->
  (i < j)%nat -> projects !! i = Some p -> projects !! j = Some q ->
  Project.__lt__ q p = Ok false /\
  (Project.client p = None -> Project.client q = None).
Proof.
  intros Hfetch Hij Hi Hj.
  assert (Hord : ordered projects).
  { unfold _fetch_projects in Hfetch. destruct response as [me|]; [|done].
    destruct (md_projects me); [by eapply list_sort_ordered|].
    by injection Hfetch as <-. }
  pose proof (ordered_lookup _ _ _ _ _ Hord Hij Hi Hj) as Hqp.
  split; [exact Hqp|]. intros Hp.
  rewrite project_lt_spec in Hqp. injection Hqp as Hqp.
  unfold spec_project_lt, spec_client_rank in Hqp. rewrite Hp in Hqp.
  destruct (Project.client q) as [c|]; [|done].
  by destruct (bool_decide (c = DEFAULT_CLIENT)).
Qed.

Lemma fetch_projects_sorted_witness :
  exists projects p q,
    _fetch_projects (Some me_unsorted) = Ok projects /\
    projects !! 0%nat = Some p /\ projects !! 2%nat = Some q /\
    Project.id p = 23 /\ Project.id q = 21 /\
    Project.__lt__ q p = Ok false.
Proof.
  eexists. eexists. eexists.
  split; [reflexivity|]. split; [reflexivity|]. split; [reflexivity|].
  split; [reflexivity|]. split; [reflexivity|].
  exact (proj1 (fetch_projects_sorted (Some me_unsorted) _ 0 2 _ _ eq_refl
                  ltac:(lia) eq_refl eq_refl)).
Defined.

Lemma clients_fold_get_Some (cs : list raw_client) (m : dict str) (k : Z) (n : str) :
  dict_get k
    (fold_left (fun m c => match rc_id c, rc_name c with
                           | Some i, Some n => dict_set i n m
                           | _, _ => m
                           end) cs m) = Some n ->
  (exists c, In c cs /\ rc_id c = Some k /\ rc_name c = Some n) \/ dict_get k m = Some n.
Proof.
  revert m. induction cs as [|c cs IH]; intros m; cbn [fold_left]; [auto|].
  intros H. destruct (IH _ H) as [(c' & Hin & Hid & Hname)|Hget].
  - left. exists c'. split; [by right|done].
  - destruct (rc_id c) as [i|] eqn:Hi, (rc_name c) as [n'|] eqn:Hn; try by right.
    destruct (decide (i = k)) as [->|Hne].
    + rewrite dict_get_set_eq in Hget. injection Hget as ->.
      left. exists c. split; [by left|done].
    + rewrite dict_get_set_ne in Hget by done. by right.
Qed.

Lemma clients_fold_get_is_Some (cs : list raw_client) (m : dict str) (k : Z) :
  (exists c, In c cs /\ rc_id c = Some k /\ is_Some (rc_name c)) \/ is_Some (dict_get k m) ->
  is_Some (dict_get k
    (fold_left (fun m c => match rc_id c, rc_name c with
                           | Some i, Some n => dict_set i n m
                           | _, _ => m
                           end) cs m)).
Proof.
  revert m. induction cs as [|c cs IH]; intros m; cbn [fold_left].
  - by intros [(c & [] & _)|?].
  - intros [(c' & [<-|Hin] & Hid & [n Hname])|Hm]; apply IH.
    + right. rewrite Hid, Hname, dict_get_set_eq. by eexists.
    + left. exists c'. split_and!; [done..|by eexists].
    + right. destruct (rc_id c) as [i|], (rc_name c) as [n'|]; try done.
      destruct (decide (i = k)) as [->|Hne].
      * rewrite dict_get_set_eq. by eexists.
      * by rewrite dict_get_set_ne.
Qed.

(** The client of a fetched project is the name of a client record that has
    the project's [client_id] and a name; it is absent exactly when the
    [client_id] is null or no record with that id has a name. *)
Theorem client_name_resolution (clients_data : list raw_client) (p : raw_project) :
  let project := project_of_raw (clients_map_of clients_data) p in
  (forall n, Project.client project = Some n ->
     exists k c, rp_client_id p = Some k /\ In c clients_data
                 /\ rc_id c = Some k /\ rc_name c = Some n) /\
  (Project.client project = None <->
   rp_client_id p = None
   \/ exists k, rp_client_id p = Some k
                /\ forall c, In c clients_data -> rc_id c = Some k -> rc_name c = None).
Proof.
  cbn [project_of_raw Project.client]. unfold clients_map_of.
  destruct (rp_client_id p) as [k|]; cbn [mbind option_bind].
  - split.
    + intros n Hn. destruct (clients_fold_get_Some _ _ _ _ Hn) as [(c & ?)|?]; [|done].
      by exists k, c.
    + split.
      * intros Hnone. right. exists k. split; [done|]. intros c Hin Hid.
        destruct (rc_name c) as [n|] eqn:Hname; [|done].
        assert (Hsome : is_Some (dict_get k
                  (fold_left (fun m c => match rc_id c, rc_name c with
                                         | Some i, Some n => dict_set i n m
                                         | _, _ => m
                                         end) clients_data [])))
          by (apply clients_fold_get_is_Some; left; exists c; rewrite Hname; eauto).
        rewrite Hnone in Hsome. by destruct Hsome.
      * intros [?|(k' & [= <-] & Hall)]; [done|].
        destruct (dict_get k _) as [n|] eqn:Hget; [|done].
        destruct (clients_fold_get_Some _ _ _ _ Hget) as [(c & Hin & Hid & Hname)|?];
          [|done].
        by rewrite (Hall c Hin Hid) in Hname.
  - split; [done|]. split; auto.
Qed.

(** ** [_projects_to_dict]: what the dictionary holds *)

Lemma dict_set_fresh {V : Type} (k : Z) (v : V) (d : dict V) :
  k ∉ dict_keys d -> dict_set k v d = d ++ [(k, v)].
Proof.
  unfold dict_keys. induction d as [|[k' v'] d IH]; cbn [dict_set map fst app]; [done|].
  intros [Hne Hd]%not_elem_of_cons. destruct (Z.eqb_spec k k'); [done|].
  by rewrite IH.
Qed.

Lemma projects_fold_fresh (ps : list Project.t) (d : dict Project.t) :
  NoDup (map Project.id ps) ->
  (forall p, In p ps -> Project.id p ∉ dict_keys d) ->
  fold_left (fun d q => dict_set (Project.id q) q d) ps d
  = d ++ map (fun p => (Project.id p, p)) ps.
Proof.
  revert d. induction ps as [|q ps IH]; intros d; cbn [fold_left map].
  - by rewrite app_nil_r.
  - intros [Hq Hnd]%list.NoDup_cons Hfresh.
    rewrite dict_set_fresh by (apply Hfresh; by left).
    rewrite IH; [by rewrite <- app_assoc|done|].
    intros p Hp. unfold dict_keys. rewrite map_app. cbn [map fst].
    intros [Hin|Hin%list_elem_of_singleton]%elem_of_app.
    + by apply (Hfresh p (or_intror Hp)).
    + apply Hq. rewrite <- Hin. apply list_elem_of_In, in_map. done.
Qed.

Lemma projects_fold_get_is_Some (ps : list Project.t) (d : dict Project.t) (k : Z) :
  (exists p, In p ps /\ Project.id p = k) \/ is_Some (dict_get k d) ->
  is_Some (dict_get k (fold_left (fun d q => dict_set (Project.id q) q d) ps d)).
Proof.
  revert d. induction ps as [|q ps IH]; intros d; cbn [fold_left].
  - by intros [(p & [] & _)|?].
  - intros [(p & [<-|Hin] & Hid)|Hd]; apply IH.
    + right. rewrite Hid, dict_get_set_eq. by eexists.
    + left. by exists p.
    + right. destruct (decide (Project.id q = k)) as [<-|Hne].
      * rewrite dict_get_set_eq. by eexists.
      * by rewrite dict_get_set_ne.
Qed.

(** The dictionary built from a project list has each id once as key, holds
    only projects of the list under their own id, and has an entry for every
    id of the list.  When the ids of the list are distinct, nothing is lost:
    keys and values are the ids and projects of the list, in its order. *)
Theorem projects_to_dict_contents (projects : list Project.t) :
  let d := _projects_to_dict projects in
  NoDup (dict_keys d) /\
  (forall k p, dict_get k d = Some p -> In p projects /\ Project.id p = k) /\
  (forall p, In p projects -> is_Some (dict_get (Project.id p) d)) /\
  (NoDup (map Project.id projects) ->
   dict_values d = projects /\ dict_keys d = map Project.id projects /\
   forall p, In p projects -> dict_get (Project.id p) d = Some p).
Proof.
  cbn zeta. unfold _projects_to_dict. split_and!.
  - apply projects_fold_keys_NoDup, NoDup_nil_2.
  - intros k p Hget. by destruct (projects_fold_get_Some _ _ _ _ Hget) as [?|?].
  - intros p Hp. apply projects_fold_get_is_Some. left. by exists p.
  - intros Hnd. rewrite projects_fold_fresh by (done || intros; apply not_elem_of_nil).
    cbn [app]. unfold dict_values, dict_keys. rewrite !map_map. cbn [fst snd].
    split; [apply map_id|]. split; [done|].
    intros p Hp. rewrite <- (projects_fold_get_NoDup projects [] p Hnd Hp).
    by rewrite projects_fold_fresh by (done || intros; apply not_elem_of_nil).
Qed.

Lemma projects_to_dict_contents_witness :
  NoDup (map Project.id [p_web; p_zeta]) /\
  dict_values (_projects_to_dict [p_web; p_zeta]) = [p_web; p_zeta].
Proof.
  assert (Hnd : NoDup (map Project.id [p_web; p_zeta])).
  { cbn. repeat (apply NoDup_cons_2; [rewrite ?elem_of_cons, elem_of_nil; lia|]).
    apply NoDup_nil_2. }
  split; [exact Hnd|].
  exact (proj1 (proj2 (proj2 (proj2 (projects_to_dict_contents [p_web; p_zeta]))) Hnd)).
Defined.

(** ** The menu: what a step can change *)

Lemma is_alias_used_false (self : ProjectMenu.t) (alias : str) (j : nat) (q : Project.t) :
  ProjectMenu._is_alias_used self alias = false ->
  ProjectMenu.projects self !! j = Some q -> Project.alias q <> Some alias.
Proof.
  intros Hunused Hj Hq.
  by rewrite (is_alias_used_true self j q alias Hj Hq) in Hunused.
Qed.

(** The four things a step of the menu can do to the state. *)
Lemma edit_step_cases `{UnicodeDB}
    (self self' : ProjectMenu.t) (i : nat) (user : interaction) (out : list message) :
  ProjectMenu._edit_project_menu_loop self i user = Ok (self', out) ->
  exists selected,
    ProjectMenu.projects self !! i = Some selected /\
    (self' = self
     \/ (exists a, a <> [] /\ ProjectMenu._is_alias_used self a = false /\
           self' = {| ProjectMenu.projects :=
                        <[i := Project.set_alias selected (Some a)]>
                          (ProjectMenu.projects self);
                      ProjectMenu.default_project_id :=
                        ProjectMenu.default_project_id self |})
     \/ self' = {| ProjectMenu.projects :=
                     <[i := Project.set_alias selected None]> (ProjectMenu.projects self);
                   ProjectMenu.default_project_id := ProjectMenu.default_project_id self |}
     \/ self' = {| ProjectMenu.projects := ProjectMenu.projects self;
                   ProjectMenu.default_project_id := Some (Project.id selected) |}).
Proof.
  unfold ProjectMenu._edit_project_menu_loop.
  destruct (ProjectMenu.projects self !! i) as [selected|] eqn:Hi; [|done].
  intros Hstep. exists selected. split; [done|].
  destruct (ProjectMenu._show_edit_project_menu self i (picked_action user))
    as [[]|]; cbn [bind] in Hstep; [| | | |done].
  - unfold ProjectMenu._show_change_alias_menu in Hstep.
    destruct (negb _ || _) eqn:Hskip; [left; by injection Hstep as <- _|].
    destruct (ProjectMenu._is_alias_used self _) eqn:Hused;
      [left; by injection Hstep as <- _|].
    right. left. exists (str_strip (typed user)). injection Hstep as <- _.
    split_and!; [|done..]. apply orb_false_elim in Hskip as [Hskip _].
    by destruct (str_strip (typed user)).
  - right. right. left. by injection Hstep as <- _.
  - right. right. right. by injection Hstep as <- _.
  - left. by injection Hstep as <- _.
Qed.

Lemma set_alias_same_but_alias (p : Project.t) (a : option str) :
  same_but_alias p (Project.set_alias p a).
Proof. by split_and!. Qed.

Lemma same_but_alias_refl (p : Project.t) : same_but_alias p p.
Proof. by split_and!. Qed.

Lemma same_but_alias_trans (p q r : Project.t) :
  same_but_alias p q -> same_but_alias q r -> same_but_alias p r.
Proof.
  intros (? & ? & ? & ? & ?) (? & ? & ? & ? & ?). split_and!; congruence.
Qed.

Lemma insert_same_but_alias (ps : list Project.t) (i : nat) (p : Project.t)
    (a : option str) :
  ps !! i = Some p ->
  Forall2 same_but_alias ps (<[i := Project.set_alias p a]> ps).
Proof.
  intros Hi. apply Forall2_same_length_lookup_2.
  - by rewrite length_insert.
  - intros j x y Hx Hy. destruct (decide (i = j)) as [<-|Hne].
    + rewrite list_lookup_insert_eq in Hy by (by eapply lookup_lt_Some).
      injection Hy as <-. rewrite Hi in Hx. injection Hx as <-.
      apply set_alias_same_but_alias.
    + rewrite list_lookup_insert_ne in Hy by done.
      rewrite Hx in Hy. injection Hy as <-. apply same_but_alias_refl.
Qed.

Lemma same_but_alias_ids (ps qs : list Project.t) :
  Forall2 same_but_alias ps qs -> map Project.id qs = map Project.id ps.
Proof.
  induction 1 as [|p q ps qs (Hid & _) _ IH]; [done|]. cbn [map]. by rewrite Hid, IH.
Qed.

Lemma edit_step_same_but_alias `{UnicodeDB}
    (self self' : ProjectMenu.t) (i : nat) (user : interaction) (out : list message) :
  ProjectMenu._edit_project_menu_loop self i user = Ok (self', out) ->
  Forall2 same_but_alias (ProjectMenu.projects self) (ProjectMenu.projects self').
Proof.
  intros Hstep.
  destruct (edit_step_cases _ _ _ _ _ Hstep)
    as (selected & Hi & [-> | [(a & _ & _ & ->) | [-> | ->]]]);
    cbn [ProjectMenu.projects];
    first [by apply insert_same_but_alias
          | apply Forall2_same_length_lookup_2; [done|];
            intros j x y Hx Hy; rewrite Hx in Hy; injection Hy as <-;
            apply same_but_alias_refl].
Qed.

Lemma edit_step_aliases_unique `{UnicodeDB}
    (self self' : ProjectMenu.t) (i : nat) (user : interaction) (out : list message) :
  ProjectMenu._edit_project_menu_loop self i user = Ok (self', out) ->
  aliases_unique (ProjectMenu.projects self) ->
  aliases_unique (ProjectMenu.projects self').
Proof.
  intros Hstep Huniq.
  destruct (edit_step_cases _ _ _ _ _ Hstep)
    as (selected & Hi & [-> | [(a & _ & Hunused & ->) | [-> | ->]]]);
    cbn [ProjectMenu.projects]; try done.
  - intros j1 j2 p q b Hp Hq Hpb Hqb.
    pose proof (lookup_lt_Some _ _ _ Hi) as Hlt.
    destruct (decide (i = j1)) as [<-|Hne1], (decide (i = j2)) as [<-|Hne2]; [done|..].
    + rewrite list_lookup_insert_eq in Hp by done. injection Hp as <-.
      rewrite list_lookup_insert_ne in Hq by done.
      cbn [Project.set_alias Project.alias] in Hpb. injection Hpb as <-.
      by destruct (is_alias_used_false self a j2 q Hunused Hq).
    + rewrite list_lookup_insert_eq in Hq by done. injection Hq as <-.
      rewrite list_lookup_insert_ne in Hp by done.
      cbn [Project.set_alias Project.alias] in Hqb. injection Hqb as <-.
      by destruct (is_alias_used_false self a j1 p Hunused Hp).
    + rewrite list_lookup_insert_ne in Hp, Hq by done. by eapply Huniq.
  - intros j1 j2 p q b Hp Hq Hpb Hqb.
    pose proof (lookup_lt_Some _ _ _ Hi) as Hlt.
    destruct (decide (i = j1)) as [<-|Hne1], (decide (i = j2)) as [<-|Hne2]; [done|..].
    + rewrite list_lookup_insert_eq in Hp by done. by injection Hp as <-.
    + rewrite list_lookup_insert_eq in Hq by done. by injection Hq as <-.
    + rewrite list_lookup_insert_ne in Hp, Hq by done. by eapply Huniq.
Qed.

Lemma edit_step_default_listed `{UnicodeDB}
    (self self' : ProjectMenu.t) (i : nat) (user : interaction) (out : list message) :
  ProjectMenu._edit_project_menu_loop self i user = Ok (self', out) ->
  default_listed self -> default_listed self'.
Proof.
  intros Hstep Hdef.
  pose proof (same_but_alias_ids _ _ (edit_step_same_but_alias _ _ _ _ _ Hstep)) as Hids.
  unfold default_listed. rewrite Hids.
  destruct (edit_step_cases _ _ _ _ _ Hstep)
    as (selected & Hi & [-> | [(a & _ & _ & ->) | [-> | ->]]]);
    cbn [ProjectMenu.default_project_id]; try done.
  intros d [= <-]. apply list_elem_of_In, in_map, list_elem_of_In.
  by eapply list_elem_of_lookup_2.
Qed.

(** ** The menu loop: invariants of a session *)

Section MenuLoop.
Context `{UnicodeDB} (P : ProjectMenu.t -> Prop).
Hypothesis P_step :
  forall self self' i user out,
    ProjectMenu._edit_project_menu_loop self i user = Ok (self', out) ->
    P self -> P self'.

(** A property kept by every step holds of the state the session ends in,
    which is the state that is saved. *)
Lemma menu_loop_invariant (self : ProjectMenu.t) (inputs : list interaction)
    (s : ProjectMenu.session) (out : list message) :
  P self -> ProjectMenu.select_project_menu_loop self inputs = Ok (s, out) ->
  s = ProjectMenu.Not_saved
  \/ exists self', P self' /\ (s = ProjectMenu.Awaiting_input self'
                               \/ s = ProjectMenu.Saved (ProjectMenu._make_config self')).
Proof.
  revert self s out. induction inputs as [|user inputs IH]; intros self s out HP;
    cbn [ProjectMenu.select_project_menu_loop].
  - intros [= <- _]. right. exists self. auto.
  - destruct (ProjectMenu._show_select_project_menu self (picked_project user))
      as [| |choice].
    + intros [= <- _]. right. exists self. auto.
    + intros [= <- _]. by left.
    + destruct (ProjectMenu._edit_project_menu_loop self choice user)
        as [[self' out1]|] eqn:Hstep; [|done]. cbn [bind].
      destruct (ProjectMenu.select_project_menu_loop self' inputs)
        as [[s' out2]|] eqn:Hloop; [|done]. cbn [bind]. intros [= <- _].
      eapply IH; [|exact Hloop]. by eapply P_step.
Qed.

End MenuLoop.

Lemma saved_aliases_unique (projects : list Project.t) :
  aliases_unique projects -> stored_aliases_unique (_projects_to_dict projects).
Proof.
  intros Huniq k1 k2 p q a Hp Hq Hpa Hqa.
  destruct (projects_fold_get_Some _ _ _ _ Hp) as [[Hinp <-]|?]; [|done].
  destruct (projects_fold_get_Some _ _ _ _ Hq) as [[Hinq <-]|?]; [|done].
  apply list_elem_of_In, list_elem_of_lookup in Hinp as [i Hi].
  apply list_elem_of_In, list_elem_of_lookup in Hinq as [j Hj].
  pose proof (Huniq i j p q a Hi Hj Hpa Hqa) as ->. congruence.
Qed.

(** A session never makes two projects share an alias: if no alias is shared
    when the menu opens, none is in the state the session reaches, nor in the
    configuration it saves. *)
Theorem menu_session_keeps_aliases_unique `{UnicodeDB}
    (self : ProjectMenu.t) (inputs : list interaction)
    (s : ProjectMenu.session) (out : list message) :
  aliases_unique (ProjectMenu.projects self) ->
  ProjectMenu.select_project_menu_loop self inputs = Ok (s, out) ->
  match s with
  | ProjectMenu.Saved config => stored_aliases_unique (Config.projects config)
  | ProjectMenu.Awaiting_input self' => aliases_unique (ProjectMenu.projects self')
  | ProjectMenu.Not_saved => True
  end.
Proof.
  intros Huniq Hloop.
  destruct (menu_loop_invariant (fun m => aliases_unique (ProjectMenu.projects m))
              (fun m m' i u o Hs => edit_step_aliases_unique m m' i u o Hs)
              self inputs s out Huniq Hloop)
    as [-> | (self' & Huniq' & [-> | ->])]; [done..|].
  by apply saved_aliases_unique.
Qed.

Lemma menu_example_aliases_unique : aliases_unique (ProjectMenu.projects menu_example).
Proof.
  intros [|[|i]] [|[|j]] p q a Hp Hq Hpa Hqa; try done;
    cbn in Hp, Hq; simplify_eq; done.
Qed.

Lemma menu_session_keeps_aliases_unique_witness :
  aliases_unique (ProjectMenu.projects menu_example) /\
  ProjectMenu.select_project_menu_loop (H := ascii_db) menu_example [user_types_web]
  = Ok (ProjectMenu.Awaiting_input menu_example,
        [Error_alias_in_use (str_of_string "web")]) /\
  aliases_unique (ProjectMenu.projects menu_example).
Proof.
  split; [exact menu_example_aliases_unique|]. split; [reflexivity|].
  exact (menu_session_keeps_aliases_unique (H := ascii_db) menu_example [user_types_web]
           _ _ menu_example_aliases_unique eq_refl).
Defined.

(** A session changes nothing of a project but its alias: the state it
    reaches, and the configuration it saves, list the same projects in the
    same order with the same id, name, workspace, client and billable flag. *)
Theorem menu_session_only_edits_aliases `{UnicodeDB}
    (self : ProjectMenu.t) (inputs : list interaction)
    (s : ProjectMenu.session) (out : list message) :
  ProjectMenu.select_project_menu_loop self inputs = Ok (s, out) ->
  s = ProjectMenu.Not_saved
  \/ exists self',
       Forall2 same_but_alias (ProjectMenu.projects self) (ProjectMenu.projects self')
       /\ (s = ProjectMenu.Awaiting_input self'
           \/ s = ProjectMenu.Saved
                    {| Config.projects := _projects_to_dict (ProjectMenu.projects self');
                       Config.default_project_id := ProjectMenu.default_project_id self' |}).
Proof.
  apply (menu_loop_invariant
           (fun m => Forall2 same_but_alias (ProjectMenu.projects self)
                             (ProjectMenu.projects m))).
  - intros m m' i u o Hstep Hm.
    eapply Forall2_trans; [|exact Hm|by eapply edit_step_same_but_alias].
    apply same_but_alias_trans.
  - apply Forall2_same_length_lookup_2; [done|].
    intros j x y Hx Hy. rewrite Hx in Hy. injection Hy as <-. apply same_but_alias_refl.
Qed.

Lemma menu_session_only_edits_aliases_witness :
  exists self',
    Forall2 same_but_alias (ProjectMenu.projects menu_example) (ProjectMenu.projects self')
    /\ ProjectMenu.select_project_menu_loop (H := ascii_db) menu_example
         [mk_interaction (Some 0%nat) (Some 1%nat) []]
       = Ok (ProjectMenu.Awaiting_input self', [Alias_removed]).
Proof.
  destruct (menu_session_only_edits_aliases (H := ascii_db) menu_example
              [mk_interaction (Some 0%nat) (Some 1%nat) []] _ _ eq_refl)
    as [Hns | (self' & Hsame & [Hs | Hs])]; [discriminate Hns| |discriminate Hs].
  exists self'. split; [exact Hsame|]. by rewrite <- Hs.
Defined.

(** ** [handle_projects]: from the stored configuration to the saved one *)

Lemma fetch_projects_ids_NoDup (response : option me_data) (projects : list Project.t) :
  _fetch_projects response = Ok projects ->
  NoDup (map rp_id (default [] (response ≫= md_projects))) ->
  NoDup (map Project.id projects).
Proof.
  destruct response as [me|]; [|done]. cbn [mbind option_bind]. intros Hfetch Hnd.
  destruct (fetch_projects_Ok me) as (projects' & Hfetch' & Hperm).
  rewrite Hfetch in Hfetch'. injection Hfetch' as <-.
  rewrite <- Hperm, map_map. cbn [project_of_raw Project.id].
  by apply NoDup_map_filter.
Qed.

Lemma merged_default_listed (old_config : Config.t) (new_projects : list Project.t) :
  default_listed (merged_menu old_config new_projects).
Proof.
  unfold default_listed, merged_menu, default_project_still_exists.
  cbn [ProjectMenu.projects ProjectMenu.default_project_id].
  intros d. destruct (truthy_opt _ _ && existsb _ _) eqn:Hex; [|done].
  intros Hd. apply andb_prop in Hex as [_ Hex].
  apply existsb_exists in Hex as (p & Hp & Hid). apply bool_decide_eq_true in Hid.
  rewrite Hd in Hid. injection Hid as <-. by apply list_elem_of_In, in_map.
Qed.

Lemma merged_aliases_unique (old_config : Config.t) (new_projects : list Project.t) :
  stored_aliases_unique (Config.projects old_config) ->
  NoDup (map Project.id new_projects) ->
  (forall p, In p new_projects -> Project.alias p = None) ->
  aliases_unique (ProjectMenu.projects (merged_menu old_config new_projects)).
Proof.
  intros Hold Hnd Hfresh. cbn [merged_menu ProjectMenu.projects].
  intros i j p' q' a Hp' Hq' Hpa Hqa.
  apply list_lookup_fmap_Some_1 in Hp' as (p & -> & Hp).
  apply list_lookup_fmap_Some_1 in Hq' as (q & -> & Hq).
  destruct (merge_alias_spec old_config p) as (_ & _ & _ & _ & _ & Hap).
  destruct (merge_alias_spec old_config q) as (_ & _ & _ & _ & _ & Haq).
  cbn zeta in Hap, Haq. rewrite Hpa in Hap. rewrite Hqa in Haq.
  destruct (dict_get (Project.id p) _) as [op|] eqn:Hop;
    [|by rewrite (Hfresh p) in Hap
        by (by eapply list_elem_of_In, list_elem_of_lookup_2)].
  destruct (dict_get (Project.id q) _) as [oq|] eqn:Hoq;
    [|by rewrite (Hfresh q) in Haq
        by (by eapply list_elem_of_In, list_elem_of_lookup_2)].
  pose proof (Hold _ _ op oq a Hop Hoq (eq_sym Hap) (eq_sym Haq)) as Hid.
  eapply NoDup_lookup; [exact Hnd|..]; rewrite list_lookup_fmap.
  - by rewrite Hp.
  - rewrite Hq. cbn. congruence.
Qed.

(** The alias invariant of the configuration survives [handle_projects]:
    from a stored configuration without shared aliases and a response with
    distinct project ids, whatever the user does, the configuration saved
    has no shared alias either. *)
Theorem handle_projects_keeps_aliases_unique `{UnicodeDB}
    (old_config config : Config.t) (response : option me_data)
    (inputs : list interaction) (out : list message) :
  stored_aliases_unique (Config.projects old_config) ->
  NoDup (map rp_id (default [] (response ≫= md_projects))) ->
  handle_projects (Some old_config) response inputs = Ok (ProjectMenu.Saved config, out) ->
  stored_aliases_unique (Config.projects config).
Proof.
  intros Hold Hnd. unfold handle_projects. cbn [_load_config bind].
  destruct (_fetch_projects response) as [new_projects|] eqn:Hfetch; [|done].
  cbn [bind]. intros Hloop.
  assert (Huniq : aliases_unique
                    (ProjectMenu.projects (merged_menu old_config new_projects))).
  { apply merged_aliases_unique; [done| |by eapply fetch_projects_alias].
    by eapply fetch_projects_ids_NoDup. }
  destruct (menu_loop_invariant (fun m => aliases_unique (ProjectMenu.projects m))
              (fun m m' i u o Hs => edit_step_aliases_unique m m' i u o Hs)
              _ inputs _ out Huniq Hloop)
    as [? | (self' & Huniq' & [? | [= ->]])]; [done..|].
  by apply saved_aliases_unique.
Qed.

(** The default project of a saved configuration is one of its projects,
    whatever the stored configuration and the response were; and if its id
    is not 0, the empty selector resolves to it. *)
Theorem handle_projects_default_is_stored `{UnicodeDB}
    (stored : option Config.t) (config : Config.t) (response : option me_data)
    (inputs : list interaction) (out : list message) (d : Z) :
  handle_projects stored response inputs = Ok (ProjectMenu.Saved config, out) ->
  Config.default_project_id config = Some d ->
  exists p,
    dict_get d (Config.projects config) = Some p /\ Project.id p = d /\
    (d <> 0 -> Config.get_project config None = Some p
               /\ Config.get_project config (Some []) = Some p).
Proof.
  unfold handle_projects. destruct stored as [old_config|]; [|done].
  cbn [_load_config bind].
  destruct (_fetch_projects response) as [new_projects|] eqn:Hfetch; [|done].
  cbn [bind]. intros Hloop Hd.
  destruct (menu_loop_invariant default_listed
              (fun m m' i u o Hs => edit_step_default_listed m m' i u o Hs)
              _ inputs _ out (merged_default_listed old_config new_projects) Hloop)
    as [? | (self' & Hdef & [? | [= ->]])]; [done..|].
  cbn [ProjectMenu._make_config Config.default_project_id Config.projects] in *.
  specialize (Hdef d Hd). apply list_elem_of_In, in_map_iff in Hdef as (p0 & Hid & Hin).
  destruct (projects_fold_get_is_Some (ProjectMenu.projects self') [] d) as [p Hp].
  { left. by exists p0. }
  exists p. split; [exact Hp|].
  destruct (projects_fold_get_Some _ _ _ _ Hp) as [[_ Hidp]|?]; [|done].
  split; [done|]. intros Hnz.
  unfold Config.get_project, Config._get_default_project.
  cbn [truthy_opt truthy_str negb Config.default_project_id Config.projects
       ProjectMenu._make_config].
  rewrite Hd. unfold truthy_int. by destruct (Z.eqb_spec d 0).
Qed.

Lemma config_five_aliases_unique : stored_aliases_unique (Config.projects config_five).
Proof.
  intros k1 k2 p q a Hp Hq _ _. cbn in Hp, Hq.
  destruct (Z.eqb_spec k1 5), (Z.eqb_spec k2 5); congruence.
Qed.

Lemma me_example_ids_NoDup :
  NoDup (map rp_id (default [] (Some me_example ≫= md_projects))).
Proof.
  cbn. repeat (apply NoDup_cons_2; [rewrite ?elem_of_cons, elem_of_nil; lia|]).
  apply NoDup_nil_2.
Qed.

Lemma handle_projects_keeps_aliases_unique_witness :
  exists config out,
    handle_projects (H := ascii_db) (Some config_five) (Some me_example)
      session_second_entry_then_save = Ok (ProjectMenu.Saved config, out)
    /\ stored_aliases_unique (Config.projects config).
Proof.
  eexists. eexists. split; [reflexivity|].
  exact (handle_projects_keeps_aliases_unique (H := ascii_db) config_five _
           (Some me_example) session_second_entry_then_save _
           config_five_aliases_unique me_example_ids_NoDup eq_refl).
Defined.

Lemma handle_projects_default_is_stored_witness :
  exists config out p,
    handle_projects (H := ascii_db) (Some config_five) (Some me_example)
      session_second_entry_then_save = Ok (ProjectMenu.Saved config, out)
    /\ Config.default_project_id config = Some 11
    /\ dict_get 11 (Config.projects config) = Some p.
Proof.
  destruct (handle_projects_default_is_stored (H := ascii_db) (Some config_five) _
              (Some me_example) session_second_entry_then_save _ 11 eq_refl eq_refl)
    as (p & Hp & _).
  eexists. eexists. exists p. split; [reflexivity|]. split; [reflexivity|]. exact Hp.
Defined.

(** ** The menu loop: composition and failures *)

(** The loop reads its input from left to right and stops reading at "Save
    and quit" or Esc: running it on [xs ++ ys] is running it on [xs] and, if
    it is still at the project list, going on with [ys] from the state
    reached.  So Esc after any edits saves nothing. *)
Theorem menu_loop_app `{UnicodeDB}
    (self : ProjectMenu.t) (xs ys : list interaction) :
  ProjectMenu.select_project_menu_loop self (xs ++ ys) =
    (let* '(s, out) := ProjectMenu.select_project_menu_loop self xs in
     match s with
     | ProjectMenu.Awaiting_input self' =>
         let* '(s', out') := ProjectMenu.select_project_menu_loop self' ys in
         Ok (s', out ++ out')
     | _ => Ok (s, out)
     end) /\
  (forall self' out esc,
     ProjectMenu.select_project_menu_loop self xs
     = Ok (ProjectMenu.Awaiting_input self', out) ->
     picked_project esc = None ->
     ProjectMenu.select_project_menu_loop self (xs ++ esc :: ys)
     = Ok (ProjectMenu.Not_saved, out ++ [Quit_without_saving])).
Proof.
  assert (Happ : forall self,
    ProjectMenu.select_project_menu_loop self (xs ++ ys) =
    (let* '(s, out) := ProjectMenu.select_project_menu_loop self xs in
     match s with
     | ProjectMenu.Awaiting_input self' =>
         let* '(s', out') := ProjectMenu.select_project_menu_loop self' ys in
         Ok (s', out ++ out')
     | _ => Ok (s, out)
     end)).
  { clear self. induction xs as [|user xs IH]; intros self;
      cbn [app ProjectMenu.select_project_menu_loop bind].
    - by destruct (ProjectMenu.select_project_menu_loop self ys) as [[s out]|].
    - destruct (ProjectMenu._show_select_project_menu self (picked_project user));
        [done..|].
      destruct (ProjectMenu._edit_project_menu_loop self i user) as [[self1 out1]|];
        [|done]. cbn [bind]. rewrite IH.
      destruct (ProjectMenu.select_project_menu_loop self1 xs) as [[s out2]|];
        [|done]. cbn [bind].
      destruct s as [config| |self2]; [done..|].
      destruct (ProjectMenu.select_project_menu_loop self2 ys) as [[s' out3]|];
        [|done]. cbn [bind]. by rewrite app_assoc. }
  split; [apply Happ|].
  intros self' out esc Hxs Hesc.
  assert (Hesc' : forall zs, ProjectMenu.select_project_menu_loop self' (esc :: zs)
                             = Ok (ProjectMenu.Not_saved, [Quit_without_saving])).
  { intros zs. cbn [ProjectMenu.select_project_menu_loop].
    unfold ProjectMenu._show_select_project_menu. by rewrite Hesc. }
  clear Happ. revert self out Hxs.
  induction xs as [|user xs IH]; intros self; cbn [app].
  - intros out [= -> <-]. by rewrite Hesc'.
  - cbn [ProjectMenu.select_project_menu_loop]. destruct (ProjectMenu._show_select_project_menu self (picked_project user));
      [done..|].
    destruct (ProjectMenu._edit_project_menu_loop self i user) as [[self1 out1]|];
      [|done]. cbn [bind].
    destruct (ProjectMenu.select_project_menu_loop self1 xs) as [[s out2]|] eqn:Hrest;
      [|done]. cbn [bind]. intros out [= -> <-].
    rewrite (IH self1 out2 Hrest). cbn [bind]. by rewrite app_assoc.
Qed.



(** ** The lines of the project list *)

Lemma shortcut_label_bracket (i : nat) :
  (i < 34)%nat ->
  exists c, ProjectMenu._shortcut_for_index (Z.of_nat i) = [91%N; c; 93%N; 32%N]
            /\ c <> 113%N /\ c <> 122%N /\
            forall j c', (j < 34)%nat ->
              ProjectMenu._shortcut_for_index (Z.of_nat j) = [91%N; c'; 93%N; 32%N] ->
              c' = c -> j = i.
Proof.
  intros Hi. rewrite (shortcut_for_index_cases (Z.of_nat i)) by lia.
  destruct (Z.ltb_spec (Z.of_nat i) 10), (Z.ltb_spec (Z.of_nat i) 26),
    (Z.ltb_spec (Z.of_nat i) 34); try lia;
    (eexists; split; [reflexivity|]; split; [lia|]; split; [lia|];
     intros j c' Hj; rewrite (shortcut_for_index_cases (Z.of_nat j)) by lia;
     destruct (Z.ltb_spec (Z.of_nat j) 10), (Z.ltb_spec (Z.of_nat j) 26),
       (Z.ltb_spec (Z.of_nat j) 34); try lia; intros [= <-]; lia).
Qed.

(** Among the first 34 projects every line of the list begins with its own
    bracketed shortcut: two different lines differ, and none is the quit
    entry.  A line exists exactly for the indices of the project list. *)
Theorem menu_lines_distinct (self : ProjectMenu.t) (i j : nat) (line_i line_j : str) :
  ProjectDisplay._project_menu_str self i = Ok line_i ->
  ProjectDisplay._project_menu_str self j = Ok line_j ->
  (i < 34)%nat -> (j < 34)%nat -> i <> j ->
  line_i <> line_j /\ line_i <> ProjectDisplay.quit_entry /\
  (i < length (ProjectMenu.projects self))%nat.
Proof.
  unfold ProjectDisplay._project_menu_str.
  destruct (ProjectMenu.projects self !! i) as [p|] eqn:Hp; [|done].
  destruct (ProjectMenu.projects self !! j) as [q|] eqn:Hq; [|done].
  intros [= <-] [= <-] Hi Hj Hne.
  destruct (shortcut_label_bracket i Hi) as (c & -> & Hcq & _ & Hinj).
  destruct (shortcut_label_bracket j Hj) as (c' & Hlabel & _).
  rewrite Hlabel. split_and!.
  - intros Heq. apply Hne. symmetry. apply (Hinj j c' Hj Hlabel).
    repeat case_bool_decide; cbn [app] in Heq; congruence.
  - intros Heq. apply Hcq.
    case_bool_decide; cbn [app] in Heq; unfold ProjectDisplay.quit_entry in Heq;
      congruence.
  - by eapply lookup_lt_Some.
Qed.

Lemma menu_lines_distinct_witness :
  exists line_0 line_1,
    ProjectDisplay._project_menu_str menu_example 0 = Ok line_0 /\
    ProjectDisplay._project_menu_str menu_example 1 = Ok line_1 /\
    line_0 <> line_1.
Proof.
  eexists. eexists. split; [reflexivity|]. split; [reflexivity|].
  exact (proj1 (menu_lines_distinct menu_example 0 1 _ _ eq_refl eq_refl
                  ltac:(lia) ltac:(lia) ltac:(lia))).
Defined.

(** The entries handed to the terminal menu are one line per project, in
    order, then the separator and the quit entry; building them never fails.
    The index that [_show_select_project_menu] takes for "quit" is the
    position of the quit entry, and no other. *)
Theorem select_project_items_shape (self : ProjectMenu.t) :
  exists lines,
    ProjectDisplay.select_project_items self
    = Ok (map Some lines ++ [None; Some ProjectDisplay.quit_entry]) /\
    length lines = length (ProjectMenu.projects self) /\
    (forall i, (i < length (ProjectMenu.projects self))%nat ->
       ProjectDisplay._project_menu_str self i
       = from_option Ok (Raise IndexError) (lines !! i)) /\
    (forall i, ProjectMenu._show_select_project_menu self (Some i) = ProjectMenu.sel_q
               <-> (map Some lines ++ [None; Some ProjectDisplay.quit_entry]) !! i
                   = Some (Some ProjectDisplay.quit_entry)
                   /\ (length lines < i)%nat).
Proof.
  unfold ProjectDisplay.select_project_items.
  assert (Hgen : forall n k, (k + n = length (ProjectMenu.projects self))%nat ->
    exists lines,
      ProjectDisplay.menu_lines self (seq k n) = Ok (map Some lines) /\
      length lines = n /\
      forall i, (i < n)%nat ->
        ProjectDisplay._project_menu_str self (k + i)
        = from_option Ok (Raise IndexError) (lines !! i)).
  { induction n as [|n IH]; intros k Hk; cbn [seq ProjectDisplay.menu_lines].
    - exists []. split; [done|]. split; [done|]. lia.
    - destruct (ProjectDisplay._project_menu_str self k) as [line|] eqn:Hline.
      + destruct (IH (S k) ltac:(lia)) as (lines & Hlines & Hlen & Hnth).
        exists (line :: lines). cbn [bind]. rewrite Hlines. cbn [bind map].
        split; [done|]. split; [cbn; lia|].
        intros [|i] Hi.
        * by rewrite Nat.add_0_r.
        * replace (k + S i)%nat with (S k + i)%nat by lia.
          change ((line :: lines) !! S i) with (lines !! i). apply Hnth. lia.
      + unfold ProjectDisplay._project_menu_str in Hline.
        destruct (lookup_lt_is_Some_2 (ProjectMenu.projects self) k ltac:(lia))
          as [p Hp]. by rewrite Hp in Hline. }
  destruct (Hgen (length (ProjectMenu.projects self)) 0%nat ltac:(lia))
    as (lines & Hlines & Hlen & Hnth).
  exists lines. rewrite Hlines. cbn [bind]. split; [done|]. split; [done|].
  split; [intros i Hi; by rewrite <- (Hnth i Hi)|].
  intros i. unfold ProjectMenu._show_select_project_menu. rewrite <- Hlen.
  destruct (Nat.eqb_spec i (length lines + 2 - 1)) as [->|Hne].
  - split; [intros _|done]. split; [|lia].
    rewrite lookup_app_r by (rewrite length_map; lia). rewrite length_map.
    by replace (length lines + 2 - 1 - length lines)%nat with 1%nat by lia.
  - split; [done|]. intros [Hquit Hlt]. exfalso. apply Hne.
    rewrite lookup_app_r in Hquit by (rewrite length_map; lia).
    rewrite length_map in Hquit.
    destruct (i - length lines)%nat as [|[|[|n]]] eqn:Hi; cbn in Hquit;
      try done; lia.
Qed.

(** ** Resolution order, merging, and the first start *)

Lemma find_first {A : Type} (f : A -> bool) (l : list A) (x : A) :
  find f l = Some x ->
  exists before after, l = before ++ x :: after /\ f x = true
                       /\ forall y, In y before -> f y = false.
Proof.
  induction l as [|y l IH]; cbn [find]; [done|].
  destruct (f y) eqn:Hy.
  - intros [= <-]. exists [], l. by split_and!.
  - intros Hfind. destruct (IH Hfind) as (before & after & -> & Hx & Hbefore).
    exists (y :: before), after. split_and!; [done..|].
    intros z [<-|Hz]; auto.
Qed.

(** With a non-empty selector [get_project] returns the first stored project,
    in the order of the dictionary, whose alias is the selector or whose
    lower-cased name is the lower-cased selector: a project listed earlier
    that matches by name wins over a later one that matches by alias. *)
Theorem get_project_first_match `{UnicodeDB}
    (self : Config.t) (selector : str) (p : Project.t) :
  selector <> [] ->
  Config.get_project self (Some selector) = Some p ->
  exists before after,
    dict_values (Config.projects self) = before ++ p :: after /\
    (Project.alias p = Some selector
     \/ str_lower (Project.name p) = str_lower selector) /\
    forall q, In q before ->
      Project.alias q <> Some selector
      /\ str_lower (Project.name q) <> str_lower selector.
Proof.
  intros Hsel. unfold Config.get_project. cbn [truthy_opt default id].
  destruct selector as [|c selector]; [done|]. cbn [truthy_str negb].
  set (sel := c :: selector).
  assert (Hmatch : forall q,
            Config.alias_matches q sel || Config.name_matches q sel = true <->
            (Project.alias q = Some sel \/ str_lower (Project.name q) = str_lower sel)).
  { intros q. rewrite orb_true_iff. unfold Config.alias_matches, Config.name_matches.
    rewrite str_eqb_eq, andb_true_iff, bool_decide_eq_true.
    split; (intros [Ha|Hn]; [left|by right]); [by destruct Ha|].
    split; [|done]. by rewrite Ha. }
  intros Hfind. destruct (find_first _ _ _ Hfind) as (before & after & Hl & Hp & Hbefore).
  exists before, after. split; [done|]. split; [by apply Hmatch|].
  intros q Hq. specialize (Hbefore q Hq). apply not_true_iff_false in Hbefore.
  rewrite Hmatch in Hbefore. tauto.
Qed.

Lemma get_project_first_match_witness :
  str_of_string "proj5" <> [] /\
  exists p before after,
    Config.get_project (H := ascii_db) config_five (Some (str_of_string "proj5")) = Some p
    /\ dict_values (Config.projects config_five) = before ++ p :: after.
Proof.
  split; [discriminate|].
  destruct (get_project_first_match (H := ascii_db) config_five (str_of_string "proj5")
              _ ltac:(discriminate) eq_refl) as (before & after & Hvalues & _).
  eexists. exists before, after. split; [reflexivity | exact Hvalues].
Defined.

Lemma get_project_selector_witness :
  str_of_string "old NAME" <> [] /\
  match Config.get_project (H := ascii_db) config_five (Some (str_of_string "old NAME")) with
  | Some p => Project.id p = 5
  | None => False
  end.
Proof.
  split; [discriminate|].
  pose proof (get_project_selector (H := ascii_db) config_five
                (str_of_string "old NAME") ltac:(discriminate)) as Hsel.
  destruct (Config.get_project config_five (Some (str_of_string "old NAME")))
    as [p|] eqn:Hp.
  - destruct Hsel as [[Hin|[]] _]. by rewrite <- Hin.
  - destruct (Hsel _ (or_introl eq_refl)) as [_ Hname]. by apply Hname.
Defined.

(** The menu that [handle_projects] opens lists the fetched projects in
    their order; each has the fetched id, name, workspace, client and
    billable flag, and the alias of the stored project of the same id, or
    its own when there is none.  A stored default id other than 0 is kept
    exactly when a fetched project has it; no default stays no default. *)
Theorem merged_menu_contents (old_config : Config.t) (new_projects : list Project.t) :
  length (ProjectMenu.projects (merged_menu old_config new_projects))
  = length new_projects /\
  (forall i p, new_projects !! i = Some p ->
     exists q,
       ProjectMenu.projects (merged_menu old_config new_projects) !! i = Some q /\
       same_but_alias p q /\
       Project.alias q =
         match dict_get (Project.id p) (Config.projects old_config) with
         | Some old_project => Project.alias old_project
         | None => Project.alias p
         end) /\
  (Config.default_project_id old_config = None ->
   ProjectMenu.default_project_id (merged_menu old_config new_projects) = None) /\
  (forall d, Config.default_project_id old_config = Some d -> d <> 0 ->
     ProjectMenu.default_project_id (merged_menu old_config new_projects)
     = if bool_decide (d ∈ map Project.id new_projects) then Some d else None).
Proof.
  split_and!.
  - cbn [merged_menu ProjectMenu.projects]. by rewrite length_map.
  - intros i p Hp. exists (merge_alias old_config p).
    cbn [merged_menu ProjectMenu.projects].
    split; [by rewrite list_lookup_fmap, Hp|].
    destruct (merge_alias_spec old_config p) as (? & ? & ? & ? & ? & ?).
    by split_and!.
  - intros Hnone. unfold merged_menu, default_project_still_exists.
    cbn [ProjectMenu.default_project_id]. by rewrite Hnone.
  - intros d Hd Hnz. unfold merged_menu, default_project_still_exists.
    cbn [ProjectMenu.default_project_id]. rewrite Hd. cbn [truthy_opt].
    unfold truthy_int. destruct (Z.eqb_spec d 0) as [?|_]; [done|]. cbn [negb andb].
    rewrite <- (merge_alias_id old_config new_projects).
    set (ps := map (merge_alias old_config) new_projects).
    destruct (existsb _ ps) eqn:Hex.
    + apply existsb_exists in Hex as (p & Hp & Hid).
      apply bool_decide_eq_true in Hid. injection Hid as <-.
      rewrite bool_decide_eq_true_2; [done|]. by apply list_elem_of_In, in_map.
    + rewrite bool_decide_eq_false_2; [done|].
      intros (p & <- & Hp)%list_elem_of_In%in_map_iff.
      assert (existsb (fun p0 => bool_decide (Some (Project.id p0) = Some (Project.id p)))
                ps = true); [|congruence].
      apply existsb_exists. exists p. split; [done|]. by apply bool_decide_eq_true.
Qed.

(** Right after [init] there is no default project: a start without a
    project selector ends in [sys.exit(1)], whatever was fetched. *)
Theorem start_after_init_needs_project `{UnicodeDB}
    (response : option me_data) (config : Config.t) (entry : option time_entry)
    (description : str) (selector : option str) (billable : bool) (now : datetime) :
  handle_init response = Ok config ->
  selector = None \/ selector = Some [] ->
  handle_start (Some config) entry description selector billable now
  = Raise (SystemExit 1).
Proof.
  unfold handle_init. intros Hinit Hsel.
  apply bind_Ok_inv in Hinit as (projects & _ & [= <-]).
  unfold handle_start. cbn [_load_config bind]. destruct entry; [done|].
  unfold Config.get_project, Config._get_default_project.
  by destruct Hsel as [-> | ->].
Qed.

Lemma start_after_init_needs_project_witness :
  exists config,
    handle_init (Some me_example) = Ok config /\
    handle_start (H := ascii_db) (Some config) None (str_of_string "work") None true
      utc_10_07_00 = Raise (SystemExit 1).
Proof.
  eexists. split; [reflexivity|].
  exact (start_after_init_needs_project (H := ascii_db) (Some me_example) _ None
           (str_of_string "work") None true utc_10_07_00 eq_refl (or_introl eq_refl)).
Defined.

(** The letter z is never a shortcut, and a label is empty or four
    characters long: an opening bracket, one character, a closing bracket
    and a space. *)
Theorem shortcut_never_z (i : Z) :
  0 <= i ->
  ~ In (Z.to_N ord_z) (ProjectMenu._shortcut_for_index i) /\
  (ProjectMenu._shortcut_for_index i = []
   \/ exists c, ProjectMenu._shortcut_for_index i = [91%N; c; 93%N; 32%N]) /\
  (ProjectMenu._shortcut_for_index i = [] <-> 34 <= i).
Proof.
  intros Hi. rewrite (shortcut_for_index_cases i Hi). unfold ord_z.
  destruct (Z.ltb_spec i 10), (Z.ltb_spec i 26), (Z.ltb_spec i 34); try lia;
    (split_and!; [cbn [In]; lia | eauto | split; (done || lia)]).
Qed.

Lemma shortcut_never_z_witness :
  0 <= 33 /\ ~ In (Z.to_N ord_z) (ProjectMenu._shortcut_for_index 33).
Proof.
  split; [lia|]. exact (proj1 (shortcut_never_z 33 ltac:(lia))).
Defined.

Lemma get_project_empty_witness :
  Config.get_project (H := ascii_db) config_five None
  = dict_get 5 (Config.projects config_five).
Proof.
  exact (proj2 (get_project_empty (H := ascii_db) config_five None (or_introl eq_refl))
           5 eq_refl ltac:(lia)).
Defined.

(** ** Fetching never fails on a response *)

(** A falsy response ends in [sys.exit(1)].  Any other response gives a
    list: sorting cannot raise, projects without client included.  The list
    is empty when the response has no projects, has as many projects as
    there are active, non-private entries, and none of them has an alias. *)
Theorem fetch_projects_never_fails (me : me_data) :
  _fetch_projects None = Raise (SystemExit 1) /\
  (md_projects me = None \/ md_projects me = Some [] -> _fetch_projects (Some me) = Ok []) /\
  exists projects,
    _fetch_projects (Some me) = Ok projects /\
    length projects
    = length (List.filter (fun p => rp_active p && negb (rp_is_private p))
                          (default [] (md_projects me))) /\
    forall p, In p projects -> Project.alias p = None.
Proof.
  split; [done|]. split.
  - unfold _fetch_projects. by intros [-> | ->].
  - destruct (fetch_projects_Ok me) as (projects & Hfetch & Hperm).
    exists projects. split; [done|]. split.
    + by rewrite <- (Permutation_length Hperm), length_map.
    + by eapply fetch_projects_alias.
Qed.

(** With distinct remote ids, the configuration that [init] stores lists its
    projects in sorted order: that is the order in which [get_project]
    searches them. *)
Theorem handle_init_config_sorted
    (me : me_data) (config : Config.t) (i j : nat) (p q : Project.t) :
  handle_init (Some me) = Ok config ->
  NoDup (map rp_id (default [] (md_projects me))) ->
  (i < j)%nat ->
  dict_values (Config.projects config) !! i = Some p ->
  dict_values (Config.projects config) !! j = Some q ->
  Project.__lt__ q p = Ok false.
Proof.
  unfold handle_init. intros Hinit Hnd Hij Hp Hq.
  apply bind_Ok_inv in Hinit as (projects & Hfetch & [= <-]).
  cbn [Config.projects] in Hp, Hq.
  assert (Hids : NoDup (map Project.id projects))
    by (by eapply (fetch_projects_ids_NoDup (Some me))).
  assert (Hvalues : dict_values (_projects_to_dict projects) = projects).
  { unfold _projects_to_dict.
    rewrite projects_fold_fresh by (done || intros; apply not_elem_of_nil).
    cbn [app]. unfold dict_values. rewrite map_map. apply map_id. }
  rewrite Hvalues in Hp, Hq.
  assert (Hord : ordered projects).
  { unfold _fetch_projects in Hfetch.
    destruct (md_projects me); [by eapply list_sort_ordered|].
    by injection Hfetch as <-. }
  by eapply ordered_lookup.
Qed.

Lemma me_unsorted_ids_NoDup : NoDup (map rp_id (default [] (md_projects me_unsorted))).
Proof.
  cbn. repeat (apply NoDup_cons_2; [rewrite ?elem_of_cons, elem_of_nil; lia|]).
  apply NoDup_nil_2.
Qed.

Lemma handle_init_config_sorted_witness :
  exists config p q,
    handle_init (Some me_unsorted) = Ok config /\
    dict_values (Config.projects config) !! 0%nat = Some p /\
    dict_values (Config.projects config) !! 2%nat = Some q /\
    Project.id p = 23 /\ Project.id q = 21 /\
    Project.__lt__ q p = Ok false.
Proof.
  eexists. eexists. eexists.
  split; [reflexivity|]. split; [reflexivity|]. split; [reflexivity|].
  split; [reflexivity|]. split; [reflexivity|].
  exact (handle_init_config_sorted me_unsorted _ 0 2 _ _ eq_refl
           me_unsorted_ids_NoDup ltac:(lia) eq_refl eq_refl).
Defined.
